(** * cooking-service: the notification core and the handlers around it

    A shallow embedding of the parts of the recipe site that decide how
    notifications, ratings and the admin delete cascade behave:

    - the notification utilities of the server file (createNotification,
      getUserNotifications, getUnreadCount, markAsRead, markAllAsRead),
    - the handlers POST /recipes/:id/rating and POST /admin/users/delete/:id,
    - the mail module (emailTemplate, sendEmailNotification,
      generateEmailContent, sendNotification, getEmailSubject).

    The code is asynchronous JavaScript over two collaborators, a pool of
    MySQL connections and an SMTP transport.  Every [await] is a sequencing
    point of one request, so a request is modelled as a computation in a
    small monad that threads the collaborators' state, may throw, and emits
    the effects it performs (statements, mails, console lines) in the order
    it performs them.  Collaborator faults are injected from a schedule held
    in the world, so that every theorem below quantifies over them
    explicitly.

    Statements that commit on their own are modelled on one connection.
    The delete handler opens a transaction, and there the connection
    matters: it is embedded a second time on the pool ([Pool]), where the
    connection that serves a statement is the pool's choice, and the two
    embeddings are shown to agree when the pool serves the whole request
    from one connection. *)

From Stdlib Require Import List String Ascii Bool Arith ZArith Lia.
From Stdlib Require Import Sorting.Sorted Sorting.Permutation Sorting.Mergesort.
From Stdlib Require Import Orders DecimalString.
Import ListNotations.

#[local] Open Scope list_scope.
#[local] Open Scope string_scope.
#[local] Open Scope nat_scope.

(* ================================================================== *)
(** ** JavaScript values and strings *)
(* ================================================================== *)

Module Js.

(** The double quote, for templates that contain one. *)
Definition dq : string := String (ascii_of_nat 34) EmptyString.

(** The values that reach the modelled code as fields of an event payload:
    a missing field reads [undefined]; numbers are the integers. *)
Inductive value : Type :=
| Undefined
| Null
| Str (s : string)
| Num (n : Z).

(** Decimal numerals, as template literals print an integer. *)
Definition string_of_nat (n : nat) : string :=
  NilEmpty.string_of_uint (Nat.to_uint n).

Definition string_of_Z (n : Z) : string :=
  match n with
  | Z0 => "0"
  | Zpos p => string_of_nat (Pos.to_nat p)
  | Zneg p => "-" ++ string_of_nat (Pos.to_nat p)
  end.

(** [ToString], as a template literal applies it to a placeholder. *)
Definition toString (v : value) : string :=
  match v with
  | Undefined => "undefined"
  | Null => "null"
  | Str s => s
  | Num n => string_of_Z n
  end.

(** [ToBoolean]. *)
Definition truthy (v : value) : bool :=
  match v with
  | Undefined | Null => false
  | Str s => negb (String.eqb s EmptyString)
  | Num n => negb (Z.eqb n 0)
  end.

(** [a || b] on values. *)
Definition or (a b : value) : value := if truthy a then a else b.

(** A nullable text column read back as a value. *)
Definition of_option (o : option string) : value :=
  match o with Some s => Str s | None => Null end.

(** [s.startsWith(p)] *)
Fixpoint startsWith (p s : string) : bool :=
  match p, s with
  | EmptyString, _ => true
  | String a p', String b s' => Ascii.eqb a b && startsWith p' s'
  | String _ _, EmptyString => false
  end.

(** [hay.includes(needle)] *)
Fixpoint includes (needle hay : string) : bool :=
  startsWith needle hay ||
  match hay with
  | EmptyString => false
  | String _ t => includes needle t
  end.

(** Does a [>] occur in [s]? *)
Fixpoint has_gt (s : string) : bool :=
  match s with
  | EmptyString => false
  | String c t => Ascii.eqb c ">" || has_gt t
  end.

(** [s.replace(/<[^>]*>/g, '')]: every [<] that is followed, somewhere, by a
    [>] opens a match that runs to the first such [>]; a [<] with no [>]
    after it matches nothing and stays.  [in_tag] is true inside a match.
    The scan is over bytes: [<] and [>] are ASCII and no byte of a
    multi-byte UTF-8 sequence equals either. *)
Fixpoint strip_from (in_tag : bool) (s : string) : string :=
  match s with
  | EmptyString => EmptyString
  | String c t =>
      if in_tag then
        if Ascii.eqb c ">" then strip_from false t else strip_from true t
      else if Ascii.eqb c "<" && has_gt t then strip_from true t
      else String c (strip_from false t)
  end.

Definition stripTags (s : string) : string := strip_from false s.

End Js.

(* ================================================================== *)
(** ** The relational store *)
(* ================================================================== *)

(** Rows carry the columns the modelled statements read or write.  The
    schema file is not part of the sources; the columns are those named by
    the SQL text in the code. *)

Module User.
Record t : Type := mk
  { id : nat; login : string; name : string; email : option string;
    role : string; is_banned : bool }.
End User.

Module Recipe.
Record t : Type := mk { id : nat; user_id : option nat; title : string }.
End Recipe.

Module RecipeStep.
Record t : Type := mk { recipe_id : nat; step_number : nat; text : string }.
End RecipeStep.

Module RecipeCategory.
Record t : Type := mk { recipe_id : nat; category_id : nat }.
End RecipeCategory.

Module Rating.
Record t : Type := mk { recipe_id : nat; user_id : nat; rating : Z }.
End Rating.

Module Review.
Record t : Type := mk
  { id : nat; recipe_id : nat; user_id : option nat;
    author_name : option string; text : string; parent_id : option nat }.
End Review.

Module Notification.
Record t : Type := mk
  { id : nat; user_id : nat; text : string; link : option string;
    is_read : bool; created_at : nat }.

(** [SET is_read = TRUE] on one row. *)
Definition set_read (n : t) : t :=
  mk (id n) (user_id n) (text n) (link n) true (created_at n).
End Notification.

(** [ORDER BY created_at DESC]: the order handed to the library's merge
  sort.  MySQL leaves the order of rows with equal keys open; the merge
  sort keeps them in table order. *)
Module NewestFirst <: TotalLeBool.
Definition t := Notification.t.
Definition leb (a b : t) : bool :=
  Notification.created_at b <=? Notification.created_at a.
Infix "<=?" := leb (at level 70, no associativity).
Definition leb_total (a b : t) : (a <=? b) = true \/ (b <=? a) = true :=
  match Nat.le_ge_cases (Notification.created_at b) (Notification.created_at a) with
  | or_introl H => or_introl (proj2 (Nat.leb_le _ _) H)
  | or_intror H => or_intror (proj2 (Nat.leb_le _ _) H)
  end.
End NewestFirst.

Module NotificationSort := Sort NewestFirst.

(** [ORDER BY id ASC] on users. *)
Module ByIdAsc <: TotalLeBool.
Definition t := User.t.
Definition leb (a b : t) : bool := User.id a <=? User.id b.
Infix "<=?" := leb (at level 70, no associativity).
Definition leb_total (a b : t) : (a <=? b) = true \/ (b <=? a) = true :=
  match Nat.le_ge_cases (User.id a) (User.id b) with
  | or_introl H => or_introl (proj2 (Nat.leb_le _ _) H)
  | or_intror H => or_intror (proj2 (Nat.leb_le _ _) H)
  end.
End ByIdAsc.

Module UserSort := Sort ByIdAsc.

Module Db.

(** A nullable integer column compared with a parameter: NULL equals nothing. *)
Definition col_is (c : option nat) (v : nat) : bool :=
  match c with Some x => x =? v | None => false end.

Record Tables : Type := mkTables
  { users : list User.t;
    recipes : list Recipe.t;
    recipe_steps : list RecipeStep.t;
    recipe_categories : list RecipeCategory.t;
    ratings : list Rating.t;
    reviews : list Review.t;
    notifications : list Notification.t;
    (** the AUTO_INCREMENT counter of notifications.id *)
    next_notification_id : nat }.

(** One connection: the committed tables, the working copy of an open
    transaction, and the server clock that stamps [created_at]. *)
Record Conn : Type := mkConn
  { committed : Tables; txn : option Tables; now : nat }.

(** What a statement on this connection reads. *)
Definition view (c : Conn) : Tables :=
  match txn c with Some w => w | None => committed c end.

(** Error codes the driver reports. *)
Inductive error : Type :=
| ER_DUP_ENTRY
| ER_NO_REFERENCED_ROW_2
| ER_BAD_NULL_ERROR
| ER_LOCK_WAIT_TIMEOUT
| PROTOCOL_CONNECTION_LOST
| ECONNREFUSED.

(** The SQL texts of the modelled code, with their parameters. *)
Inductive statement : Type :=
| START_TRANSACTION
| COMMIT
| ROLLBACK
(* SELECT email, name FROM users WHERE id = ? *)
| SELECT_user_email_name (id : nat)
(* INSERT INTO notifications (user_id, text, link) VALUES (?, ?, ?) *)
| INSERT_notification (user_id : option nat) (text : string) (link : option string)
(* SELECT * FROM notifications WHERE user_id = ? ORDER BY created_at DESC LIMIT ? *)
| SELECT_notifications (user_id limit : nat)
(* SELECT COUNT( * ) as count FROM notifications WHERE user_id = ? AND is_read = FALSE *)
| SELECT_unread_count (user_id : nat)
(* UPDATE notifications SET is_read = TRUE WHERE id = ? AND user_id = ? *)
| UPDATE_notification_read (id user_id : nat)
(* UPDATE notifications SET is_read = TRUE WHERE user_id = ? AND is_read = FALSE *)
| UPDATE_notifications_read_all (user_id : nat)
(* SELECT user_id, title FROM recipes WHERE id = ? *)
| SELECT_recipe_owner_title (id : nat)
(* INSERT INTO ratings (recipe_id, user_id, rating) VALUES (?, ?, ?) *)
| INSERT_rating (recipe_id user_id : nat) (rating : Z)
(* SELECT * FROM users ORDER BY id ASC *)
| SELECT_users
(* SELECT login FROM users WHERE id = ? *)
| SELECT_user_login (id : nat)
(* SELECT id FROM recipes WHERE user_id = ? *)
| SELECT_recipe_ids (user_id : nat)
(* DELETE FROM recipe_steps WHERE recipe_id = ? *)
| DELETE_steps_of_recipe (recipe_id : nat)
(* DELETE FROM recipe_categories WHERE recipe_id = ? *)
| DELETE_categories_of_recipe (recipe_id : nat)
(* DELETE FROM ratings WHERE recipe_id = ? *)
| DELETE_ratings_of_recipe (recipe_id : nat)
(* DELETE FROM reviews WHERE recipe_id = ? *)
| DELETE_reviews_of_recipe (recipe_id : nat)
(* DELETE FROM recipes WHERE user_id = ? *)
| DELETE_recipes_of_user (user_id : nat)
(* DELETE FROM ratings WHERE user_id = ? *)
| DELETE_ratings_of_user (user_id : nat)
(* DELETE FROM reviews WHERE user_id = ? *)
| DELETE_reviews_of_user (user_id : nat)
(* DELETE FROM notifications WHERE user_id = ? *)
| DELETE_notifications_of_user (user_id : nat)
(* DELETE FROM users WHERE id = ? *)
| DELETE_user (id : nat).

(** What [db.query] resolves to: the rows of a SELECT (whole rows; the code
    reads the selected columns off them), the count of a COUNT, and nothing
    the code looks at for a write. *)
Definition result (q : statement) : Type :=
  match q with
  | SELECT_user_email_name _ | SELECT_users | SELECT_user_login _ => list User.t
  | SELECT_recipe_owner_title _ | SELECT_recipe_ids _ => list Recipe.t
  | SELECT_notifications _ _ => list Notification.t
  | SELECT_unread_count _ => nat
  | _ => unit
  end.

Definition owned_by (uid : nat) (n : Notification.t) : bool :=
  Notification.user_id n =? uid.

Definition unread_of (uid : nat) (n : Notification.t) : bool :=
  (Notification.user_id n =? uid) && negb (Notification.is_read n).

Definition unread_count (uid : nat) (t : Tables) : nat :=
  List.length (filter (unread_of uid) (notifications t)).

Definition with_notifications (l : list Notification.t) (next : nat) (t : Tables) : Tables :=
  mkTables (users t) (recipes t) (recipe_steps t) (recipe_categories t)
           (ratings t) (reviews t) l next.

Definition with_ratings (l : list Rating.t) (t : Tables) : Tables :=
  mkTables (users t) (recipes t) (recipe_steps t) (recipe_categories t)
           l (reviews t) (notifications t) (next_notification_id t).

Definition user_exists (uid : nat) (t : Tables) : bool :=
  existsb (fun u => User.id u =? uid) (users t).

Definition rated (rid uid : nat) (r : Rating.t) : bool :=
  (Rating.recipe_id r =? rid) && (Rating.user_id r =? uid).

(** Modelled from the spec: the schema is not among the sources.  The spec
    gives notifications a strict foreign key to its owning user (a row with
    no owner, or with an owner that is not a user, is refused), and new
    rows is_read = false and a server timestamp. *)
Definition insert_notification (clock : nat) (uid : option nat) (txt : string)
    (lnk : option string) (t : Tables) : error + Tables :=
  match uid with
  | None => inl ER_BAD_NULL_ERROR
  | Some u =>
      if user_exists u t then
        inr (with_notifications
               (notifications t ++
                [Notification.mk (next_notification_id t) u txt lnk false clock])
               (S (next_notification_id t)) t)
      else inl ER_NO_REFERENCED_ROW_2
  end.

(** Modelled from the spec: the schema is not among the sources.  The spec
    makes a rating unique per pair (recipe, user): a second insert for the
    pair fails with a constraint violation and adds no row. *)
Definition insert_rating (rid uid : nat) (score : Z) (t : Tables) : error + Tables :=
  if existsb (rated rid uid) (ratings t) then inl ER_DUP_ENTRY
  else inr (with_ratings (ratings t ++ [Rating.mk rid uid score]) t).

Definition mark_read (nid uid : nat) (n : Notification.t) : Notification.t :=
  if (Notification.id n =? nid) && (Notification.user_id n =? uid)
  then Notification.set_read n else n.

Definition mark_all_read (uid : nat) (n : Notification.t) : Notification.t :=
  if unread_of uid n then Notification.set_read n else n.

(** A statement that only reads, and one that rewrites the tables. *)
Definition reads {R : Type} (f : Tables -> R) (c : Conn) : error + (Conn * R) :=
  inr (c, f (view c)).

Definition put (t : Tables) (c : Conn) : Conn :=
  match txn c with
  | Some _ => mkConn (committed c) (Some t) (now c)
  | None => mkConn t None (now c)
  end.

Definition writes (f : Tables -> error + Tables) (c : Conn) : error + (Conn * unit) :=
  match f (view c) with
  | inl e => inl e
  | inr t => inr (put t c, tt)
  end.

Definition deletes (f : Tables -> Tables) : Conn -> error + (Conn * unit) :=
  writes (fun t => inr (f t)).

(** The effect of each statement on the connection.  START TRANSACTION
    commits a transaction left open and opens a new one on what is then
    committed; COMMIT publishes the working copy; ROLLBACK drops it.  A
    statement outside a transaction commits on its own. *)
Definition execute (q : statement) : Conn -> error + (Conn * result q) :=
  match q with
  | START_TRANSACTION => fun c => inr (mkConn (view c) (Some (view c)) (now c), tt)
  | COMMIT => fun c => inr (mkConn (view c) None (now c), tt)
  | ROLLBACK => fun c => inr (mkConn (committed c) None (now c), tt)
  | SELECT_user_email_name uid =>
      reads (fun t => filter (fun u => User.id u =? uid) (users t))
  | INSERT_notification uid txt lnk =>
      fun c => writes (insert_notification (now c) uid txt lnk) c
  | SELECT_notifications uid limit =>
      reads (fun t =>
        firstn limit (NotificationSort.sort (filter (owned_by uid) (notifications t))))
  | SELECT_unread_count uid => reads (unread_count uid)
  | UPDATE_notification_read nid uid =>
      deletes (fun t =>
        with_notifications (map (mark_read nid uid) (notifications t))
                           (next_notification_id t) t)
  | UPDATE_notifications_read_all uid =>
      deletes (fun t =>
        with_notifications (map (mark_all_read uid) (notifications t))
                           (next_notification_id t) t)
  | SELECT_recipe_owner_title rid =>
      reads (fun t => filter (fun r => Recipe.id r =? rid) (recipes t))
  | INSERT_rating rid uid score => writes (insert_rating rid uid score)
  | SELECT_users => reads (fun t => UserSort.sort (users t))
  | SELECT_user_login uid =>
      reads (fun t => filter (fun u => User.id u =? uid) (users t))
  | SELECT_recipe_ids uid =>
      reads (fun t => filter (fun r => col_is (Recipe.user_id r) uid) (recipes t))
  | DELETE_steps_of_recipe rid =>
      deletes (fun t =>
        mkTables (users t) (recipes t)
          (filter (fun s => negb (RecipeStep.recipe_id s =? rid)) (recipe_steps t))
          (recipe_categories t) (ratings t) (reviews t) (notifications t)
          (next_notification_id t))
  | DELETE_categories_of_recipe rid =>
      deletes (fun t =>
        mkTables (users t) (recipes t) (recipe_steps t)
          (filter (fun s => negb (RecipeCategory.recipe_id s =? rid)) (recipe_categories t))
          (ratings t) (reviews t) (notifications t) (next_notification_id t))
  | DELETE_ratings_of_recipe rid =>
      deletes (fun t =>
        with_ratings (filter (fun r => negb (Rating.recipe_id r =? rid)) (ratings t)) t)
  | DELETE_reviews_of_recipe rid =>
      deletes (fun t =>
        mkTables (users t) (recipes t) (recipe_steps t) (recipe_categories t) (ratings t)
          (filter (fun r => negb (Review.recipe_id r =? rid)) (reviews t))
          (notifications t) (next_notification_id t))
  | DELETE_recipes_of_user uid =>
      deletes (fun t =>
        mkTables (users t)
          (filter (fun r => negb (col_is (Recipe.user_id r) uid)) (recipes t))
          (recipe_steps t) (recipe_categories t) (ratings t) (reviews t)
          (notifications t) (next_notification_id t))
  | DELETE_ratings_of_user uid =>
      deletes (fun t =>
        with_ratings (filter (fun r => negb (Rating.user_id r =? uid)) (ratings t)) t)
  | DELETE_reviews_of_user uid =>
      deletes (fun t =>
        mkTables (users t) (recipes t) (recipe_steps t) (recipe_categories t) (ratings t)
          (filter (fun r => negb (col_is (Review.user_id r) uid)) (reviews t))
          (notifications t) (next_notification_id t))
  | DELETE_notifications_of_user uid =>
      deletes (fun t =>
        with_notifications
          (filter (fun n => negb (owned_by uid n)) (notifications t))
          (next_notification_id t) t)
  | DELETE_user uid =>
      deletes (fun t =>
        mkTables (filter (fun u => negb (User.id u =? uid)) (users t))
          (recipes t) (recipe_steps t) (recipe_categories t) (ratings t) (reviews t)
          (notifications t) (next_notification_id t))
  end.

(** The statements of the delete cascade proper. *)
Definition is_cascade_delete (q : statement) : bool :=
  match q with
  | DELETE_steps_of_recipe _ | DELETE_categories_of_recipe _
  | DELETE_ratings_of_recipe _ | DELETE_reviews_of_recipe _
  | DELETE_recipes_of_user _ | DELETE_ratings_of_user _
  | DELETE_reviews_of_user _ | DELETE_notifications_of_user _
  | DELETE_user _ => true
  | _ => false
  end.

Definition is_transaction_control (q : statement) : bool :=
  match q with
  | START_TRANSACTION | COMMIT | ROLLBACK => true
  | _ => false
  end.

End Db.

(* ================================================================== *)
(** ** Asynchronous computations over the collaborators *)
(* ================================================================== *)

Module Mail.
Record t : Type := mk
  { from : string; to : string; subject : string; text : string;
    html : option string }.
End Mail.

(** What a rejected promise carries. *)
Inductive exn : Type :=
| DbError (e : Db.error)
| TypeError (msg : string)
| TransportError.

(** The effects one request performs, in order. *)
Inductive event : Type :=
| Query (q : Db.statement) (ok : bool)
| SendMail (m : Mail.t) (ok : bool)
| ConsoleLog (line : string)
| ConsoleError (line : string) (err : option exn).

(** [process.env] and the process clock, as far as the templates read them. *)
Record Env : Type := mkEnv
  { SITE_URL : Js.value; EMAIL_FROM : Js.value;
    (** new Date().toLocaleDateString('ru-RU') *)
    today : string }.

Inductive smtp_reply : Type :=
| Accepted (messageId : string)
| Refused.

(** The collaborators.  [db_faults] and [smtp] are the schedules of what
    goes wrong: the head of [db_faults] is consumed by the next statement
    ([Some e] makes it fail with [e] and have no effect, [None] lets it
    through), the head of [smtp] by the next [sendMail]; an exhausted
    schedule lets everything through. *)
Record World : Type := mkWorld
  { conn : Db.Conn;
    db_faults : list (option Db.error);
    smtp : list smtp_reply;
    env : Env }.

Inductive outcome (A : Type) : Type :=
| Returns (a : A)
| Throws (e : exn).
Arguments Returns {A} a.
Arguments Throws {A} e.

Record Run (A : Type) : Type := mkRun
  { outcome_of : outcome A; world_after : World; trace : list event }.
Arguments mkRun {A} _ _ _.
Arguments outcome_of {A} _.
Arguments world_after {A} _.
Arguments trace {A} _.

(** An [async] function body. *)
Definition Async (A : Type) : Type := World -> Run A.

Definition ret {A : Type} (a : A) : Async A :=
  fun w => mkRun (Returns a) w [].

Definition throw {A : Type} (e : exn) : Async A :=
  fun w => mkRun (Throws e) w [].

Definition bind {A B : Type} (m : Async A) (k : A -> Async B) : Async B :=
  fun w =>
    match m w with
    | mkRun (Returns a) w1 t1 =>
        match k a w1 with
        | mkRun o w2 t2 => mkRun o w2 (t1 ++ t2)%list
        end
    | mkRun (Throws e) w1 t1 => mkRun (Throws e) w1 t1
    end.

(** [try { body } catch (err) { handler }] *)
Definition try_catch {A : Type} (body : Async A) (handler : exn -> Async A) : Async A :=
  fun w =>
    match body w with
    | mkRun (Returns a) w1 t1 => mkRun (Returns a) w1 t1
    | mkRun (Throws e) w1 t1 =>
        match handler e w1 with
        | mkRun o w2 t2 => mkRun o w2 (t1 ++ t2)%list
        end
    end.

Declare Scope async_scope.
Delimit Scope async_scope with async.
Notation "x <- c1 ;; c2" := (bind c1 (fun x => c2))
  (at level 61, c1 at next level, right associativity) : async_scope.
Notation "c1 ;; c2" := (bind c1 (fun _ => c2))
  (at level 61, right associativity) : async_scope.
#[local] Open Scope async_scope.

Definition emit (e : event) : Async unit :=
  fun w => mkRun (Returns tt) w [e].

Definition console_log (line : string) : Async unit := emit (ConsoleLog line).

Definition console_error (line : string) (err : option exn) : Async unit :=
  emit (ConsoleError line err).

(** [for (const x of l) { body }] *)
Fixpoint for_of {A : Type} (l : list A) (body : A -> Async unit) : Async unit :=
  match l with
  | [] => ret tt
  | x :: rest => body x ;; for_of rest body
  end.

Definition next_fault (w : World) : option Db.error :=
  match db_faults w with
  | f :: _ => f
  | [] => None
  end.

(** [await db.query(sql, params)], with every statement served by one
    connection, [conn].  [db] is a connection pool, and for a statement
    that commits on its own it makes no difference which connection serves
    it; the statements of a transaction are bound to each other only when
    one connection serves them all, which [Pool.query] does not assume. *)
Definition query (q : Db.statement) : Async (Db.result q) :=
  fun w =>
    let rest := tl (db_faults w) in
    match next_fault w with
    | Some e =>
        mkRun (Throws (DbError e)) (mkWorld (conn w) rest (smtp w) (env w)) [Query q false]
    | None =>
        match Db.execute q (conn w) with
        | inl e =>
            mkRun (Throws (DbError e)) (mkWorld (conn w) rest (smtp w) (env w))
                  [Query q false]
        | inr (c, r) =>
            mkRun (Returns r) (mkWorld c rest (smtp w) (env w)) [Query q true]
        end
    end.

(** [await transporter.sendMail(mailOptions)], resolving to [info.messageId]. *)
Definition sendMail (m : Mail.t) : Async string :=
  fun w =>
    let rest := tl (smtp w) in
    match smtp w with
    | Refused :: _ =>
        mkRun (Throws TransportError) (mkWorld (conn w) (db_faults w) rest (env w))
              [SendMail m false]
    | Accepted i :: _ =>
        mkRun (Returns i) (mkWorld (conn w) (db_faults w) rest (env w)) [SendMail m true]
    | [] =>
        mkRun (Returns EmptyString) (mkWorld (conn w) (db_faults w) rest (env w))
              [SendMail m true]
    end.

(** The tables a statement of this request would read at [w]. *)
Definition tables (w : World) : Db.Tables := Db.view (conn w).

(* ================================================================== *)
(** ** The server file: notification utilities *)
(* ================================================================== *)

Module Server.

Import Db.

(** async function createNotification(userId, text, link = null) *)
Definition createNotification (userId : option nat) (text : string)
    (link : option string) : Async unit :=
  try_catch
    (_ <- query (INSERT_notification userId text link) ;; ret tt)
    (fun err => console_error "Ошибка при создании уведомления:" (Some err)).

(** async function getUserNotifications(userId, limit = 10) *)
Definition getUserNotifications (userId limit : nat) : Async (list Notification.t) :=
  try_catch
    (notifications <- query (SELECT_notifications userId limit) ;;
     ret notifications)
    (fun err =>
       console_error "Ошибка при получении уведомлений:" (Some err) ;;
       ret []).

(** async function getUnreadCount(userId) *)
Definition getUnreadCount (userId : nat) : Async nat :=
  try_catch
    (count <- query (SELECT_unread_count userId) ;; ret count)
    (fun err =>
       console_error "Ошибка при подсчете непрочитанных:" (Some err) ;;
       ret 0).

(** async function markAsRead(notificationId, userId) *)
Definition markAsRead (notificationId userId : nat) : Async unit :=
  try_catch
    (_ <- query (UPDATE_notification_read notificationId userId) ;; ret tt)
    (fun err => console_error "Ошибка при отметке как прочитанного:" (Some err)).

(** async function markAllAsRead(userId) *)
Definition markAllAsRead (userId : nat) : Async unit :=
  try_catch
    (_ <- query (UPDATE_notifications_read_all userId) ;; ret tt)
    (fun err => console_error "Ошибка при отметке всех как прочитанных:" (Some err)).

(* ------------------------------------------------------------------ *)
(** *** Handlers *)

(** req.session.user, as the login and registration handlers set it. *)
Record SessionUser : Type := mkSessionUser
  { session_id : nat; session_name : string; session_email : option string;
    session_role : string }.

Inductive flash : Type :=
| Message (text : string)
| Error (text : string).

Inductive response : Type :=
(* res.redirect(url) *)
| Redirect (url : string)
(* res.status(code).send(body) *)
| Send (status : nat) (body : string)
(* res.render("admin_users", { title, users, message | error }) *)
| RenderAdminUsers (title : string) (users : list User.t) (note : flash).

(** ${recipeId} in a path; the route parameter is the decimal id. *)
Definition recipe_path (recipeId : nat) : string :=
  "/recipes/" ++ Js.string_of_nat recipeId.

(** app.post("/recipes/:id/rating").  [recipe] is undefined when the
    SELECT has no row, and reading its user_id then throws; nothing
    catches it there.  The try block falls through to the redirect; only
    the catch returns a response of its own. *)
Definition post_recipe_rating (session : option SessionUser) (recipeId : nat)
    (rating : Z) : Async response :=
  match session with
  | None => ret (Send 403 "Только для авторизованных")
  | Some user =>
      rows <- query (SELECT_recipe_owner_title recipeId) ;;
      match rows with
      | [] => throw (TypeError "Cannot read properties of undefined (reading 'user_id')")
      | recipe :: _ =>
          if col_is (Recipe.user_id recipe) (session_id user) then
            ret (Send 403 "Нельзя оценивать свой рецепт")
          else
            caught <-
              try_catch
                (_ <- query (INSERT_rating recipeId (session_id user) rating) ;;
                 createNotification
                   (Recipe.user_id recipe)
                   ("Пользователь " ++ session_name user ++ " оценил ваш рецепт "
                      ++ Js.dq ++ Recipe.title recipe ++ Js.dq ++ " на "
                      ++ Js.string_of_Z rating ++ " ⭐")
                   (Some (recipe_path recipeId)) ;;
                 ret None)
                (fun err => ret (Some (Send 400 "Вы уже оценили этот рецепт"))) ;;
            match caught with
            | Some early => ret early
            | None => ret (Redirect (recipe_path recipeId))
            end
      end
  end.

(** function requireAdmin(req, res, next) *)
Definition requireAdmin (session : option SessionUser)
    (next : SessionUser -> Async response) : Async response :=
  match session with
  | None => ret (Send 403 "Доступ запрещён")
  | Some user =>
      if String.eqb (session_role user) "admin" then next user
      else ret (Send 403 "Доступ запрещён")
  end.

(** The body of the try block of the delete handler, from the first SELECT
    to the last DELETE; it yields the row of the user being deleted, if any. *)
Definition delete_cascade (userId : nat) : Async (option User.t) :=
  found <- query (SELECT_user_login userId) ;;
  userRecipes <- query (SELECT_recipe_ids userId) ;;
  for_of userRecipes (fun recipe =>
    query (DELETE_steps_of_recipe (Recipe.id recipe)) ;;
    query (DELETE_categories_of_recipe (Recipe.id recipe)) ;;
    query (DELETE_ratings_of_recipe (Recipe.id recipe)) ;;
    query (DELETE_reviews_of_recipe (Recipe.id recipe)) ;;
    ret tt) ;;
  query (DELETE_recipes_of_user userId) ;;
  query (DELETE_ratings_of_user userId) ;;
  query (DELETE_reviews_of_user userId) ;;
  query (DELETE_notifications_of_user userId) ;;
  query (DELETE_user userId) ;;
  ret (hd_error found).

(** app.post("/admin/users/delete/:id", requireAdmin, ...).  The success
    message reads user.login after the COMMIT and the list of users; with
    no such user that read throws inside the try block.  Here all the
    statements run on one connection; [Pool.post_admin_users_delete] is
    the handler with each statement on the connection the pool picks. *)
Definition post_admin_users_delete (session : option SessionUser) (userId : nat)
    : Async response :=
  requireAdmin session (fun admin =>
    if session_id admin =? userId then
      users <- query SELECT_users ;;
      ret (RenderAdminUsers "Пользователи" users
             (Error "Нельзя удалить свой собственный аккаунт!"))
    else
      try_catch
        (query START_TRANSACTION ;;
         user <- delete_cascade userId ;;
         query COMMIT ;;
         users <- query SELECT_users ;;
         match user with
         | None => throw (TypeError "Cannot read properties of undefined (reading 'login')")
         | Some u =>
             ret (RenderAdminUsers "Пользователи" users
                    (Message ("Пользователь " ++ User.login u
                                ++ " и все его данные удалены!")))
         end)
        (fun err =>
           query ROLLBACK ;;
           console_error EmptyString (Some err) ;;
           users <- query SELECT_users ;;
           ret (RenderAdminUsers "Пользователи" users
                  (Error "Ошибка при удалении пользователя")))).

End Server.

(* ================================================================== *)
(** ** The mail module *)
(* ================================================================== *)

Module Mailer.

Import Db.

(** The payload of a domain event; a field that is not there reads
    [Js.Undefined]. *)
Module Data.
Record t : Type := mk
  { userName : Js.value; recipeTitle : Js.value; rating : Js.value;
    reviewText : Js.value; reason : Js.value; link : Js.value;
    message : Js.value }.
End Data.

(** process.env.SITE_URL || 'http://localhost:3000' *)
Definition site_url (e : Env) : string :=
  Js.toString (Js.or (SITE_URL e) (Js.Str "http://localhost:3000")).

(** const emailTemplate = (content) => `...` *)
Definition emailTemplate (e : Env) (content : string) : string :=
  "
<!DOCTYPE html>
<html>
<head>
    <meta charset=" ++ Js.dq ++ "UTF-8" ++ Js.dq ++ ">
    <style>
        body { font-family: Arial, sans-serif; line-height: 1.6; color: #333; }
        .container { max-width: 600px; margin: 0 auto; padding: 20px; }
        .header { background: linear-gradient(135deg, #ff7043 0%, #ff5722 100%); color: white; padding: 20px; text-align: center; border-radius: 10px 10px 0 0; }
        .content { background: #f9f9f9; padding: 30px; border-radius: 0 0 10px 10px; border: 1px solid #eee; }
        .footer { text-align: center; margin-top: 20px; color: #777; font-size: 12px; }
        .button { display: inline-block; padding: 12px 24px; background: #ff7043; color: white; text-decoration: none; border-radius: 5px; margin: 10px 0; }
        .notification-item { background: white; padding: 15px; margin: 10px 0; border-radius: 5px; border-left: 4px solid #ff7043; }
    </style>
</head>
<body>
    <div class=" ++ Js.dq ++ "container" ++ Js.dq ++ ">
        <div class=" ++ Js.dq ++ "header" ++ Js.dq ++ ">
            <h2>🍳 Кулинарный сайт</h2>
        </div>
        <div class=" ++ Js.dq ++ "content" ++ Js.dq ++ ">
            " ++ content ++ "
            <div class=" ++ Js.dq ++ "footer" ++ Js.dq ++ ">
                <p>Вы получили это письмо, потому что подписаны на уведомления на нашем сайте.</p>
                <p><a href=" ++ Js.dq ++ site_url e ++ "/profile/notifications" ++ Js.dq ++ ">Настроить уведомления</a></p>
            </div>
        </div>
    </div>
</body>
</html>
".

Definition content_NEW_RATING (e : Env) (data : Data.t) : string :=
  "
                <div class=" ++ Js.dq ++ "notification-item" ++ Js.dq ++ ">
                    <h3>⭐ Новая оценка вашего рецепта!</h3>
                    <p>Пользователь <strong>" ++ Js.toString (Data.userName data) ++ "</strong> оценил ваш рецепт 
                    <strong>" ++ Js.dq ++ Js.toString (Data.recipeTitle data) ++ Js.dq ++ "</strong> на <strong>" ++ Js.toString (Data.rating data) ++ " из 5</strong> ⭐</p>
                    <p><a href=" ++ Js.dq ++ Js.toString (Data.link data) ++ Js.dq ++ " class=" ++ Js.dq ++ "button" ++ Js.dq ++ ">Посмотреть рецепт</a></p>
                </div>
            ".

Definition content_NEW_REVIEW (e : Env) (data : Data.t) : string :=
  "
                <div class=" ++ Js.dq ++ "notification-item" ++ Js.dq ++ ">
                    <h3>💬 Новый отзыв на ваш рецепт!</h3>
                    <p>Пользователь <strong>" ++ Js.toString (Data.userName data) ++ "</strong> оставил отзыв на ваш рецепт 
                    <strong>" ++ Js.dq ++ Js.toString (Data.recipeTitle data) ++ Js.dq ++ "</strong>:</p>
                    <blockquote style=" ++ Js.dq ++ "background: #f0f0f0; padding: 10px; border-left: 3px solid #ff7043; margin: 15px 0;" ++ Js.dq ++ ">
                        " ++ Js.dq ++ Js.toString (Data.reviewText data) ++ Js.dq ++ "
                    </blockquote>
                    <p><a href=" ++ Js.dq ++ Js.toString (Data.link data) ++ Js.dq ++ " class=" ++ Js.dq ++ "button" ++ Js.dq ++ ">Посмотреть все отзывы</a></p>
                </div>
            ".

Definition content_ADMIN_BAN (e : Env) (data : Data.t) : string :=
  "
                <div class=" ++ Js.dq ++ "notification-item" ++ Js.dq ++ ">
                    <h3>🚫 Ваш аккаунт был заблокирован</h3>
                    <p>Администратор сайта заблокировал ваш аккаунт.</p>
                    <p><strong>Причина:</strong> " ++ Js.toString (Js.or (Data.reason data) (Js.Str "Не указана")) ++ "</p>
                    <p><strong>Дата блокировки:</strong> " ++ today e ++ "</p>
                    <p>Если вы считаете, что это ошибка, свяжитесь с администрацией сайта.</p>
                </div>
            ".

Definition content_ADMIN_UNBAN (e : Env) (data : Data.t) : string :=
  "
                <div class=" ++ Js.dq ++ "notification-item" ++ Js.dq ++ ">
                    <h3>✅ Ваш аккаунт разблокирован</h3>
                    <p>Администратор сайта снял блокировку с вашего аккуанта.</p>
                    <p>Теперь вы снова можете пользоваться всеми функциями сайта.</p>
                    <p><a href=" ++ Js.dq ++ site_url e ++ Js.dq ++ " class=" ++ Js.dq ++ "button" ++ Js.dq ++ ">Вернуться на сайт</a></p>
                </div>
            ".

Definition content_WELCOME (e : Env) (data : Data.t) : string :=
  "
                <div class=" ++ Js.dq ++ "notification-item" ++ Js.dq ++ ">
                    <h3>👋 Добро пожаловать на Кулинарный сайт!</h3>
                    <p>Спасибо за регистрацию, <strong>" ++ Js.toString (Data.userName data) ++ "</strong>!</p>
                    <p>Теперь вы можете:</p>
                    <ul>
                        <li>Создавать собственные рецепты</li>
                        <li>Оценивать и комментировать рецепты других пользователей</li>
                        <li>Сохранять понравившиеся рецепты</li>
                    </ul>
                    <p><a href=" ++ Js.dq ++ site_url e ++ "/recipes/create" ++ Js.dq ++ " class=" ++ Js.dq ++ "button" ++ Js.dq ++ ">Создать первый рецепт</a></p>
                </div>
            ".

Definition content_default (e : Env) (data : Data.t) : string :=
  "
                <div class=" ++ Js.dq ++ "notification-item" ++ Js.dq ++ ">
                    <h3>🔔 Новое уведомление</h3>
                    <p>" ++ Js.toString (Js.or (Data.message data) (Js.Str "У вас новое уведомление на сайте.")) ++ "</p>
                    " ++ (if Js.truthy (Data.link data) then "<p><a href=" ++ Js.dq ++ Js.toString (Data.link data) ++ Js.dq ++ " class=" ++ Js.dq ++ "button" ++ Js.dq ++ ">Подробнее</a></p>" else EmptyString) ++ "
                </div>
            ".

(** export const EmailTypes *)
Definition NEW_RATING : string := "NEW_RATING".
Definition NEW_REVIEW : string := "NEW_REVIEW".
Definition ADMIN_BAN : string := "ADMIN_BAN".
Definition ADMIN_UNBAN : string := "ADMIN_UNBAN".
Definition ADMIN_ACTION : string := "ADMIN_ACTION".
Definition RECIPE_UPDATED : string := "RECIPE_UPDATED".
Definition WELCOME : string := "WELCOME".

(** export function generateEmailContent(type, data).  The switch compares
    [type] with the strings of EmailTypes; [data] is an object here, as it
    is at the one call in this module, which has read data.link before. *)
Definition generateEmailContent (e : Env) (type : string) (data : Data.t) : string :=
  if String.eqb type NEW_RATING then content_NEW_RATING e data
  else if String.eqb type NEW_REVIEW then content_NEW_REVIEW e data
  else if String.eqb type ADMIN_BAN then content_ADMIN_BAN e data
  else if String.eqb type ADMIN_UNBAN then content_ADMIN_UNBAN e data
  else if String.eqb type WELCOME then content_WELCOME e data
  else content_default e data.

(** function getEmailSubject(type) *)
Definition getEmailSubject (type : string) : string :=
  if String.eqb type NEW_RATING then "⭐ Новая оценка вашего рецепта"
  else if String.eqb type NEW_REVIEW then "💬 Новый отзыв на ваш рецепт"
  else if String.eqb type ADMIN_BAN then "🚫 Ваш аккаунт заблокирован"
  else if String.eqb type ADMIN_UNBAN then "✅ Ваш аккаунт разблокирован"
  else if String.eqb type WELCOME then "👋 Добро пожаловать на Кулинарный сайт!"
  else "🔔 Новое уведомление с Кулинарного сайта".

(** The text of the in-app notification, the switch of sendNotification. *)
Definition notificationText (type : string) (data : Data.t) : string :=
  if String.eqb type NEW_RATING then
    "Пользователь " ++ Js.toString (Data.userName data) ++ " оценил ваш рецепт "
      ++ Js.dq ++ Js.toString (Data.recipeTitle data) ++ Js.dq ++ " на "
      ++ Js.toString (Data.rating data) ++ " ⭐"
  else if String.eqb type NEW_REVIEW then
    "Пользователь " ++ Js.toString (Data.userName data)
      ++ " оставил отзыв на ваш рецепт "
      ++ Js.dq ++ Js.toString (Data.recipeTitle data) ++ Js.dq
  else if String.eqb type ADMIN_BAN then
    "Ваш аккаунт заблокирован администратором. Причина: "
      ++ Js.toString (Js.or (Data.reason data) (Js.Str "не указана"))
  else if String.eqb type ADMIN_UNBAN then
    "Ваш аккаунт разблокирован администратором"
  else Js.toString (Js.or (Data.message data) (Js.Str "Новое уведомление")).

(** A value bound to a nullable text parameter of a statement. *)
Definition text_param (v : Js.value) : option string :=
  match v with
  | Js.Undefined | Js.Null => None
  | other => Some (Js.toString other)
  end.

Definition getenv : Async Env := fun w => mkRun (Returns (env w)) w [].

(** const mailOptions = { from, to, subject, text, html } *)
Definition mailOptions (e : Env) (to subject content : string) (isHtml : bool)
    : Mail.t :=
  Mail.mk (Js.dq ++ "Кулинарный сайт" ++ Js.dq ++ " <"
             ++ Js.toString (EMAIL_FROM e) ++ ">")
          to subject
          (if negb isHtml then content else Js.stripTags content)
          (if isHtml then Some (emailTemplate e content) else None).

(** export async function sendEmailNotification(to, subject, content, isHtml = true) *)
Definition sendEmailNotification (to subject content : string) (isHtml : bool)
    : Async bool :=
  try_catch
    (if String.eqb to EmptyString || String.eqb subject EmptyString
        || String.eqb content EmptyString
     then
       console_error "❌ Не указаны параметры для отправки email" None ;;
       ret false
     else
       e <- getenv ;;
       messageId <- sendMail (mailOptions e to subject content isHtml) ;;
       console_log ("✅ Email отправлен: " ++ messageId) ;;
       ret true)
    (fun error =>
       console_error "❌ Ошибка отправки email:" (Some error) ;;
       ret false).

(** export async function sendNotification(userId, type, data, sendEmail = true).
    [data] is [None] when the caller passes undefined or null: reading
    data.link then throws, inside the try block. *)
Definition sendNotification (userId : nat) (type : string) (data : option Data.t)
    (sendEmail : bool) : Async bool :=
  try_catch
    (rows <- query (SELECT_user_email_name userId) ;;
     match rows with
     | [] =>
         console_error ("❌ Пользователь с ID " ++ Js.string_of_nat userId ++ " не найден")
                       None ;;
         ret false
     | user :: _ =>
         match data with
         | None => throw (TypeError "Cannot read properties of undefined (reading 'link')")
         | Some d =>
             let notificationLink := Js.or (Data.link d) Js.Null in
             query (INSERT_notification (Some userId) (notificationText type d)
                                        (text_param notificationLink)) ;;
             (if sendEmail && Js.truthy (Js.of_option (User.email user)) then
                e <- getenv ;;
                let emailContent := generateEmailContent e type d in
                let subject := getEmailSubject type in
                emailSent <-
                  sendEmailNotification
                    (Js.toString (Js.of_option (User.email user)))
                    subject emailContent true ;;
                if emailSent then
                  console_log ("✅ Уведомление отправлено пользователю "
                                 ++ Js.string_of_nat userId ++ " ("
                                 ++ Js.toString (Js.of_option (User.email user)) ++ ")")
                else ret tt
              else ret tt) ;;
             ret true
         end
     end)
    (fun error =>
       console_error "❌ Ошибка при отправке уведомления:" (Some error) ;;
       ret false).

End Mailer.

(* ================================================================== *)
(** ** Scenarios: sequences of store operations and sample worlds *)
(* ================================================================== *)

Module Scenario.

Import Db Server Mailer.

(** The operations of the notification store, as a caller issues them. *)
Inductive store_op : Type :=
| Create (userId : option nat) (text : string) (link : option string)
| ListForUser (userId limit : nat)
| UnreadCount (userId : nat)
| MarkRead (notificationId userId : nat)
| MarkAllRead (userId : nat)
| Notify (userId : nat) (type : string) (data : option Data.t) (sendEmail : bool).

Definition run_op (op : store_op) : Async unit :=
  match op with
  | Create u t l => createNotification u t l
  | ListForUser u k => _ <- getUserNotifications u k ;; ret tt
  | UnreadCount u => _ <- getUnreadCount u ;; ret tt
  | MarkRead i u => markAsRead i u
  | MarkAllRead u => markAllAsRead u
  | Notify u ty d e => _ <- sendNotification u ty d e ;; ret tt
  end.

Definition run_ops (ops : list store_op) : Async unit := for_of ops run_op.

(** The row with a given id, as WHERE id = ? finds it. *)
Definition find_notification (id : nat) (t : Tables) : option Notification.t :=
  find (fun n => Notification.id n =? id) (notifications t).

(** Every notification that is read in [t] is found, unchanged, in [t']. *)
Definition keeps_read (t t' : Tables) : Prop :=
  forall id n,
    find_notification id t = Some n ->
    Notification.is_read n = true ->
    find_notification id t' = Some n.

(** What a computation that runs inside an open transaction and issues no
    transaction control keeps: nothing is committed and the transaction
    stays open; if it returns, none of its statements failed. *)
Definition in_transaction {A : Type} (m : Async A) : Prop :=
  forall w,
    (txn (conn w) <> None ->
     committed (conn (world_after (m w))) = committed (conn w) /\
     txn (conn (world_after (m w))) <> None) /\
    (forall a, outcome_of (m w) = Returns a ->
               forall q, ~ In (Query q false) (trace (m w))) /\
    (forall q ok, In (Query q ok) (trace (m w)) -> is_transaction_control q = false).

(** The mails a trace handed to the transport, with the transport's verdict. *)
Fixpoint mails (evs : list event) : list (Mail.t * bool) :=
  match evs with
  | [] => []
  | SendMail m ok :: rest => (m, ok) :: mails rest
  | _ :: rest => mails rest
  end.

(** [created_at] of [a] is not before that of [b]. *)
Definition not_older (a b : Notification.t) : Prop :=
  Notification.created_at b <= Notification.created_at a.

(** The same world with another fault schedule for the database. *)
Definition with_db_faults (fs : list (option Db.error)) (w : World) : World :=
  mkWorld (conn w) fs (smtp w) (env w).

(** A small site: Alice owns the recipe Borscht, Bob is an administrator
    with no mail address, Carol has rated nothing yet. *)
Definition alice : User.t :=
  User.mk 1 "alice" "Alice" (Some "alice@example.org") "user" false.
Definition bob : User.t := User.mk 2 "bob" "Bob" None "admin" false.
Definition carol : User.t :=
  User.mk 3 "carol" "Carol" (Some "carol@example.org") "user" false.

Definition borscht : Recipe.t := Recipe.mk 42 (Some 1) "Borscht".

Definition site : Tables :=
  mkTables [alice; bob; carol] [borscht]
    [RecipeStep.mk 42 1 "Boil the beets"] [RecipeCategory.mk 42 7]
    [Rating.mk 42 2 4]
    [Review.mk 1 42 (Some 2) None "Tasty" None]
    [Notification.mk 1 1 "first" None true 10;
     Notification.mk 2 2 "second" None false 20;
     Notification.mk 3 1 "third" (Some "/recipes/42") false 30]
    4.

Definition plain_env : Env :=
  mkEnv Js.Undefined (Js.Str "noreply@example.org") "01.01.2026".

Definition calm : World := mkWorld (mkConn site None 100) [] [] plain_env.

(** The same site with a transport that refuses the next mail. *)
Definition refusing : World := mkWorld (mkConn site None 100) [] [Refused] plain_env.

Definition session_of (u : User.t) : SessionUser :=
  mkSessionUser (User.id u) (User.name u) (User.email u) (User.role u).

(** The payload of the rating event of the spec's example. *)
Definition alice_rated_borscht : Data.t :=
  Data.mk (Js.Str "Alice") (Js.Str "Borscht") (Js.Num 5) Js.Undefined
          Js.Undefined (Js.Str "/recipes/42") Js.Undefined.

End Scenario.

(* ================================================================== *)
(** ** The server file: the notification pages and what every page loads *)
(* ================================================================== *)

Module Pages.

Import Db Server.

(** req.session.user.is_banned.  The session user is written in two
    places, the login and the registration handler, and both store exactly
    id, name, email and role: the object has no is_banned property, and
    the read yields undefined. *)
Definition session_is_banned (user : SessionUser) : Js.value := Js.Undefined.

Inductive reply : Type :=
(* res.redirect(url) *)
| RedirectTo (url : string)
(* res.status(code).send(body) *)
| SendText (status : nat) (body : string)
(* what the route answered, and then, from the callback of
   req.session.destroy, res.render("login", { title, error }) *)
| LoginPageAfter (answered : reply) (title : string) (error : string)
(* res.render("notifications", { title, notifications, notificationCount }) *)
| NotificationsPage (title : string) (notifications : list Notification.t)
                    (notificationCount : nat)
(* res.json({ success }) *)
| JsonSuccess (success : bool)
(* res.json({ count }) *)
| JsonCount (count : nat).

(** const requireAuth = (req, res, next) => ...  Only the branch without a
    session returns; the branch of a banned user starts the destruction of
    the session, whose callback renders the login page, and falls through
    to next() like the rest. *)
Definition requireAuth (session : option SessionUser)
    (next : SessionUser -> Async reply) : Async reply :=
  match session with
  | None => ret (RedirectTo "/login")
  | Some user =>
      if Js.truthy (session_is_banned user) then
        answered <- next user ;;
        ret (LoginPageAfter answered "Вход"
               "Ваш аккаунт заблокирован. Обратитесь к администратору.")
      else next user
  end.



(** app.get("/notifications", requireAuth, ...) *)
Definition get_notifications (session : option SessionUser) : Async reply :=
  requireAuth session (fun user =>
    try_catch
      (rows <- getUserNotifications (session_id user) 50 ;;
       ret (NotificationsPage "Уведомления" rows 0))
      (fun err =>
         console_error EmptyString (Some err) ;;
         ret (SendText 500 "Ошибка при загрузке уведомлений"))).

(** app.post("/notifications/:id/read", requireAuth, ...) *)
Definition post_notification_read (session : option SessionUser)
    (notificationId : nat) : Async reply :=
  requireAuth session (fun user =>
    markAsRead notificationId (session_id user) ;;
    ret (JsonSuccess true)).

(** app.post("/notifications/read-all", requireAuth, ...) *)
Definition post_notifications_read_all (session : option SessionUser) : Async reply :=
  requireAuth session (fun user =>
    markAllAsRead (session_id user) ;;
    ret (JsonSuccess true)).

(** app.get("/api/notifications/count", requireAuth, ...) *)
Definition get_notifications_count (session : option SessionUser) : Async reply :=
  requireAuth session (fun user =>
    count <- getUnreadCount (session_id user) ;;
    ret (JsonCount count)).

End Pages.

(* ================================================================== *)
(** ** What the operations are measured against *)
(* ================================================================== *)

Module Measure.

Import Db Server Mailer Scenario.

(** Does the pattern of the tag-stripping replace still match, that is, is
    some [<] followed, anywhere, by a [>]? *)
Fixpoint has_tag (s : string) : bool :=
  match s with
  | EmptyString => false
  | String c t => (Ascii.eqb c "<" && Js.has_gt t) || has_tag t
  end.

(** The recipes a user owns, and whether a recipe id is one of a list. *)
Definition recipes_of (userId : nat) (t : Tables) : list Recipe.t :=
  filter (fun r => col_is (Recipe.user_id r) userId) (recipes t).

Definition among (l : list Recipe.t) (rid : nat) : bool :=
  existsb (fun r => Recipe.id r =? rid) l.

(** The tables with everything of a user taken out: the user, the recipes
    the user owns with their steps, category links, ratings and reviews,
    and the ratings, reviews and notifications of the user. *)
Definition without_user (userId : nat) (t : Tables) : Tables :=
  mkTables
    (filter (fun u => negb (User.id u =? userId)) (users t))
    (filter (fun r => negb (col_is (Recipe.user_id r) userId)) (recipes t))
    (filter (fun s => negb (among (recipes_of userId t) (RecipeStep.recipe_id s)))
            (recipe_steps t))
    (filter (fun s => negb (among (recipes_of userId t) (RecipeCategory.recipe_id s)))
            (recipe_categories t))
    (filter (fun r => negb (among (recipes_of userId t) (Rating.recipe_id r))
                      && negb (Rating.user_id r =? userId))
            (ratings t))
    (filter (fun r => negb (among (recipes_of userId t) (Review.recipe_id r))
                      && negb (col_is (Review.user_id r) userId))
            (reviews t))
    (filter (fun n => negb (owned_by userId n)) (notifications t))
    (next_notification_id t).

(** On a connection with nothing going wrong, [m] returns [g] of the
    tables it found and leaves the tables [f] of them. *)
Definition runs_as {A : Type} (m : Async A) (f : Tables -> Tables)
    (g : Tables -> A) : Prop :=
  forall c replies e,
  exists evs,
    m (mkWorld c [] replies e)
    = mkRun (Returns (g (view c))) (mkWorld (put (f (view c)) c) [] replies e) evs /\
    (forall q ok, In (Query q ok) evs -> is_transaction_control q = false).

(** A signed-in session whose user is not an administrator. *)
Definition is_admin (session : option SessionUser) : bool :=
  match session with
  | Some user => String.eqb (session_role user) "admin"
  | None => false
  end.

(** The small site on a connection whose third statement times out on a
    lock: for a rating that is the INSERT of the notification. *)
Definition third_statement_fails : World :=
  with_db_faults [None; None; Some ER_LOCK_WAIT_TIMEOUT] calm.

End Measure.

(* ================================================================== *)
(** ** The connection pool *)
(* ================================================================== *)

(** [db] is made by [mysql.createPool] and every statement is sent with
    [db.query]: the pool takes one of its connections for the statement
    and gives it back when the statement is done.  The code never asks for
    a connection of its own (there is no getConnection anywhere), so which
    connection serves a statement is not the code's choice, and a
    transaction belongs to the connection that was sent START TRANSACTION.
    For a statement that commits on its own the connection makes no
    difference; for the handler that opens a transaction it does, and that
    handler is embedded here on the pool. *)
Module Pool.

Import Db Server.

(** The pool.  Its connections share what is committed, [durable], and the
    clock.  [sessions] holds for each connection the transaction it has
    open, if it has one: the statements that went through on it since its
    START TRANSACTION, in order.  [routes] is the schedule of the pool's
    choices: its head is the connection that serves the next statement,
    and an exhausted schedule means connection 0.  [faults] is the
    schedule of failing statements, read as [db_faults] is. *)
Record World : Type := mkWorld
  { durable : Tables;
    sessions : list (option (list statement));
    clock : nat;
    routes : list nat;
    faults : list (option error) }.

(** What a statement leaves of the tables when it runs on its own; a
    statement that is refused leaves them as they are. *)
Definition applied (n : nat) (q : statement) (t : Tables) : Tables :=
  match execute q (mkConn t None n) with
  | inr (c, _) => committed c
  | inl _ => t
  end.

(** The statements of a transaction applied, in order, to the tables. *)
Definition replay (n : nat) (log : list statement) (t : Tables) : Tables :=
  fold_left (fun acc q => applied n q acc) log t.

(** Connection [i] as its next statement finds it: inside a transaction it
    works on what is committed by then with the transaction's own
    statements applied on top. *)
Definition connection (i : nat) (w : World) : Conn :=
  mkConn (durable w)
         (option_map (fun log => replay (clock w) log (durable w))
                     (nth i (sessions w) None))
         (clock w).

(** The tables a statement served by connection [i] reads. *)
Definition seen (i : nat) (w : World) : Tables := view (connection i w).

(** The transaction of a connection after statement [q] went through on it
    and left it as [c]: none when [c] has none open, a new one after START
    TRANSACTION, and otherwise the one it had, with [q] added. *)
Definition logged (q : statement) (c : Conn) (before : option (list statement))
    : option (list statement) :=
  match txn c with
  | None => None
  | Some _ =>
      match q with
      | START_TRANSACTION => Some []
      | _ => Some (match before with Some log => log ++ [q] | None => [q] end)%list
      end
  end.

(** [sessions] with the entry of connection [i] replaced; a connection
    that had no entry yet gets one. *)
Fixpoint store (i : nat) (s : option (list statement))
    (l : list (option (list statement))) : list (option (list statement)) :=
  match i, l with
  | 0, [] => [s]
  | 0, _ :: rest => s :: rest
  | S j, [] => None :: store j s []
  | S j, x :: rest => x :: store j s rest
  end.

Record Run (A : Type) : Type := mkRun
  { outcome_of : outcome A; world_after : World; trace : list event }.
Arguments mkRun {A} _ _ _.
Arguments outcome_of {A} _.
Arguments world_after {A} _.
Arguments trace {A} _.

(** An [async] function body whose statements go through the pool. *)
Definition Async (A : Type) : Type := World -> Run A.

Definition ret {A : Type} (a : A) : Async A :=
  fun w => mkRun (Returns a) w [].

Definition throw {A : Type} (e : exn) : Async A :=
  fun w => mkRun (Throws e) w [].

Definition bind {A B : Type} (m : Async A) (k : A -> Async B) : Async B :=
  fun w =>
    match m w with
    | mkRun (Returns a) w1 t1 =>
        match k a w1 with
        | mkRun o w2 t2 => mkRun o w2 (t1 ++ t2)%list
        end
    | mkRun (Throws e) w1 t1 => mkRun (Throws e) w1 t1
    end.

(** [try { body } catch (err) { handler }] *)
Definition try_catch {A : Type} (body : Async A) (handler : exn -> Async A) : Async A :=
  fun w =>
    match body w with
    | mkRun (Returns a) w1 t1 => mkRun (Returns a) w1 t1
    | mkRun (Throws e) w1 t1 =>
        match handler e w1 with
        | mkRun o w2 t2 => mkRun o w2 (t1 ++ t2)%list
        end
    end.

Declare Scope pool_scope.
Delimit Scope pool_scope with pool.
Notation "x <- c1 ;; c2" := (bind c1 (fun x => c2))
  (at level 61, c1 at next level, right associativity) : pool_scope.
Notation "c1 ;; c2" := (bind c1 (fun _ => c2))
  (at level 61, right associativity) : pool_scope.
#[local] Open Scope pool_scope.

Definition console_error (line : string) (err : option exn) : Async unit :=
  fun w => mkRun (Returns tt) w [ConsoleError line err].

(** [for (const x of l) { body }] *)
Fixpoint for_of {A : Type} (l : list A) (body : A -> Async unit) : Async unit :=
  match l with
  | [] => ret tt
  | x :: rest => body x ;; for_of rest body
  end.

Definition next_route (w : World) : nat :=
  match routes w with
  | i :: _ => i
  | [] => 0
  end.

Definition next_fault (w : World) : option error :=
  match faults w with
  | f :: _ => f
  | [] => None
  end.

(** [await db.query(sql, params)] on the pool: the statement runs on the
    connection the pool hands out, with the effect [execute] gives it
    there.  What it leaves committed every connection sees; what it does
    inside a transaction stays with that connection until its COMMIT.  A
    statement that fails changes nothing. *)
Definition query (q : statement) : Async (result q) :=
  fun w =>
    let i := next_route w in
    let failed :=
      mkWorld (durable w) (sessions w) (clock w) (tl (routes w)) (tl (faults w)) in
    match next_fault w with
    | Some e => mkRun (Throws (DbError e)) failed [Query q false]
    | None =>
        match execute q (connection i w) with
        | inl e => mkRun (Throws (DbError e)) failed [Query q false]
        | inr (c, r) =>
            mkRun (Returns r)
                  (mkWorld (committed c)
                           (store i (logged q c (nth i (sessions w) None)) (sessions w))
                           (now c) (tl (routes w)) (tl (faults w)))
                  [Query q true]
        end
    end.

(** function requireAdmin(req, res, next) *)
Definition requireAdmin (session : option SessionUser)
    (next : SessionUser -> Async response) : Async response :=
  match session with
  | None => ret (Send 403 "Доступ запрещён")
  | Some user =>
      if String.eqb (session_role user) "admin" then next user
      else ret (Send 403 "Доступ запрещён")
  end.

(** The body of the try block of the delete handler, from the first SELECT
    to the last DELETE. *)
Definition delete_cascade (userId : nat) : Async (option User.t) :=
  found <- query (SELECT_user_login userId) ;;
  userRecipes <- query (SELECT_recipe_ids userId) ;;
  for_of userRecipes (fun recipe =>
    query (DELETE_steps_of_recipe (Recipe.id recipe)) ;;
    query (DELETE_categories_of_recipe (Recipe.id recipe)) ;;
    query (DELETE_ratings_of_recipe (Recipe.id recipe)) ;;
    query (DELETE_reviews_of_recipe (Recipe.id recipe)) ;;
    ret tt) ;;
  query (DELETE_recipes_of_user userId) ;;
  query (DELETE_ratings_of_user userId) ;;
  query (DELETE_reviews_of_user userId) ;;
  query (DELETE_notifications_of_user userId) ;;
  query (DELETE_user userId) ;;
  ret (hd_error found).

(** app.post("/admin/users/delete/:id", requireAdmin, ...), every
    [db.query] of it going through the pool. *)
Definition post_admin_users_delete (session : option SessionUser) (userId : nat)
    : Async response :=
  requireAdmin session (fun admin =>
    if session_id admin =? userId then
      users <- query SELECT_users ;;
      ret (RenderAdminUsers "Пользователи" users
             (Error "Нельзя удалить свой собственный аккаунт!"))
    else
      try_catch
        (query START_TRANSACTION ;;
         user <- delete_cascade userId ;;
         query COMMIT ;;
         users <- query SELECT_users ;;
         match user with
         | None => throw (TypeError "Cannot read properties of undefined (reading 'login')")
         | Some u =>
             ret (RenderAdminUsers "Пользователи" users
                    (Message ("Пользователь " ++ User.login u
                                ++ " и все его данные удалены!")))
         end)
        (fun err =>
           query ROLLBACK ;;
           console_error EmptyString (Some err) ;;
           users <- query SELECT_users ;;
           ret (RenderAdminUsers "Пользователи" users
                  (Error "Ошибка при удалении пользователя")))).

End Pool.

(* ================================================================== *)
(** ** One connection and many *)
(* ================================================================== *)

Module Routing.

Import Db Server Scenario.

(** The pool seen as the one connection of [query]: connection 0 with the
    fault schedule of the pool. *)
Definition pin (replies : list smtp_reply) (e : Env) (w : Pool.World) : World :=
  mkWorld (Pool.connection 0 w) (Pool.faults w) replies e.

(** [pm], whose statements go through the pool, does on a pool that serves
    every statement from connection 0 what [m] does on that connection:
    the same outcome and the same events, and it leaves the connection as
    [m] leaves it. *)
Definition pinned {A : Type} (m : Async A) (pm : Pool.Async A) : Prop :=
  forall (w : Pool.World) (replies : list smtp_reply) (e : Env),
    Pool.routes w = [] ->
    Pool.outcome_of (pm w) = outcome_of (m (pin replies e w)) /\
    Pool.trace (pm w) = trace (m (pin replies e w)) /\
    Pool.routes (Pool.world_after (pm w)) = [] /\
    pin replies e (Pool.world_after (pm w)) = world_after (m (pin replies e w)).

(** The small site behind a pool with no transaction open. *)
Definition pool_of (routes : list nat) (faults : list (option error)) : Pool.World :=
  Pool.mkWorld site [] 100 routes faults.

(** The pool serves START TRANSACTION from connection 1 and everything
    after it from connection 0; the sixth statement of the request, the
    DELETE of the ratings of the recipe, times out on a lock. *)
Definition split_pool : Pool.World :=
  pool_of [1] [None; None; None; None; None; Some ER_LOCK_WAIT_TIMEOUT].

(** The same timeout with every statement served by connection 0. *)
Definition pinned_pool : Pool.World :=
  pool_of [] [None; None; None; None; None; Some ER_LOCK_WAIT_TIMEOUT].

End Routing.

(* ================================================================== *)
(** ** Proof tactics *)
(* ================================================================== *)

Import Db Server Mailer Scenario.

(** Runs one statement-sized utility on every shape of the fault schedule. *)
Ltac by_fault_schedule w :=
  destruct w as [c faults replies e];
  destruct faults as [|[err|] faults];
  cbn -[NotificationSort.sort UserSort.sort].

(** Unfolds the body of [f] and the monad around it in [H], down to the
    first test it cannot decide. *)
Ltac run_in H f :=
  cbv beta iota zeta delta
    [f try_catch bind ret throw emit console_log console_error getenv query sendMail
     next_fault tl outcome_of world_after trace conn db_faults smtp env tables
     Db.execute Db.reads Db.writes Db.deletes Db.insert_notification Db.insert_rating]
    in H;
  cbn [app] in H.

(** The same on the goal. *)
Ltac run f :=
  cbv beta iota zeta delta
    [f try_catch bind ret throw emit console_log console_error getenv query sendMail
     next_fault tl outcome_of world_after trace conn db_faults smtp env tables
     Db.execute Db.reads Db.writes Db.deletes Db.insert_notification Db.insert_rating];
  cbn [app].

(** Picks an event out of a trace that is written out. *)
Ltac find_event := cbn [In]; repeat first [left; reflexivity | right].

(** Membership in a trace that is written out: one case per event. *)
Ltac in_trace H :=
  repeat (destruct H as [H|H];
          [try discriminate H; try (inversion H; subst; clear H)|]);
  try contradiction.

(* ================================================================== *)
(** ** Facts about the store and the monad *)
(* ================================================================== *)

Lemma view_put (t : Tables) (c : Conn) : view (put t c) = t.
Proof. unfold view, put. destruct (txn c); reflexivity. Qed.

Lemma put_view (c : Conn) : put (view c) c = c.
Proof. destruct c as [k [u|] n]; reflexivity. Qed.

Lemma put_put (t t' : Tables) (c : Conn) : put t' (put t c) = put t' c.
Proof. destruct c as [k [u|] n]; reflexivity. Qed.

Lemma with_notifications_same (t : Tables) :
  with_notifications (notifications t) (next_notification_id t) t = t.
Proof. destruct t; reflexivity. Qed.

Lemma set_read_of_read (n : Notification.t) :
  Notification.is_read n = true -> Notification.set_read n = n.
Proof. destruct n; simpl; intros ->; reflexivity. Qed.

Lemma mark_read_other (nid uid : nat) (l : list Notification.t) :
  (forall n, In n l -> Notification.id n = nid -> Notification.user_id n <> uid) ->
  map (mark_read nid uid) l = l.
Proof.
  induction l as [|n l IH]; intros H; simpl; [reflexivity|].
  rewrite IH by (intros m Hm; apply H; right; exact Hm).
  unfold mark_read.
  destruct (Nat.eqb_spec (Notification.id n) nid) as [E|E]; simpl; [|reflexivity].
  destruct (Nat.eqb_spec (Notification.user_id n) uid) as [F|F]; [|reflexivity].
  exfalso. exact (H n (or_introl eq_refl) E F).
Qed.

Lemma mark_read_rows (nid uid : nat) (l : list Notification.t) :
  Forall2 (fun before after =>
             after = before \/
             (Notification.id before = nid /\ Notification.user_id before = uid /\
              after = Notification.set_read before))
          l (map (mark_read nid uid) l).
Proof.
  induction l as [|n l IH]; simpl; constructor; [|exact IH].
  unfold mark_read.
  destruct (Nat.eqb_spec (Notification.id n) nid) as [E|E]; simpl; [|left; reflexivity].
  destruct (Nat.eqb_spec (Notification.user_id n) uid) as [F|F]; [|left; reflexivity].
  right. repeat split; assumption.
Qed.

Lemma rows_untouched {A : Type} (P : A -> A -> Prop) (l : list A) :
  (forall a, P a a) -> Forall2 P l l.
Proof. intros H. induction l; constructor; auto. Qed.

Lemma mark_all_read_idem (uid : nat) (l : list Notification.t) :
  map (mark_all_read uid) (map (mark_all_read uid) l) = map (mark_all_read uid) l.
Proof.
  rewrite map_map. apply map_ext. intros n. unfold mark_all_read, unread_of.
  destruct (Notification.user_id n =? uid) eqn:E; simpl; [|rewrite E; reflexivity].
  destruct (Notification.is_read n) eqn:F; simpl; rewrite E; simpl;
    [rewrite F|]; reflexivity.
Qed.

Lemma mark_all_read_none_left (uid : nat) (l : list Notification.t) :
  filter (unread_of uid) (map (mark_all_read uid) l) = [].
Proof.
  induction l as [|n l IH]; simpl; [reflexivity|].
  unfold mark_all_read at 1. unfold unread_of at 1 2.
  destruct (Notification.user_id n =? uid) eqn:E; simpl.
  - destruct (Notification.is_read n) eqn:F; simpl; rewrite E; simpl;
      [rewrite F|]; simpl; exact IH.
  - rewrite E. simpl. exact IH.
Qed.

Lemma strongly_sorted_prefix {A : Type} (R : A -> A -> Prop) (l1 l2 : list A) :
  StronglySorted R (l1 ++ l2)%list -> StronglySorted R l1.
Proof.
  induction l1 as [|a l1 IH]; simpl; intros H; [constructor|].
  inversion H as [|? ? Hs Hf]; subst. constructor; [apply IH; exact Hs|].
  apply Forall_app in Hf. apply Hf.
Qed.

Lemma newest_first_sorted (l : list Notification.t) :
  StronglySorted not_older (NotificationSort.sort l).
Proof.
  assert (T : Relations_1.Transitive (fun a b => is_true (NewestFirst.leb a b))).
  { intros a b c. unfold is_true, NewestFirst.leb. rewrite !Nat.leb_le. lia. }
  pose proof (NotificationSort.StronglySorted_sort l T) as H.
  induction H as [|a m Hs IH Hf]; constructor; [exact IH|].
  eapply Forall_impl; [|exact Hf].
  intros b Hb. unfold not_older. apply Nat.leb_le. exact Hb.
Qed.

(* ================================================================== *)
(** ** The notification store *)
(* ================================================================== *)

(** C6.  getUserNotifications always returns a list: at most [limit] rows,
    all owned by the user, newest first by created_at.  When the statement
    fails the list is empty and the fault is logged; otherwise the list is
    the first [limit] rows of the newest-first arrangement of all the
    user's notifications. *)
Theorem getUserNotifications_newest_first_bounded (userId limit : nat) (w : World) :
  let r := getUserNotifications userId limit w in
  exists rows,
    outcome_of r = Returns rows /\
    List.length rows <= limit /\
    Forall (fun n => Notification.user_id n = userId /\
                     In n (notifications (tables w))) rows /\
    StronglySorted not_older rows /\
    (forall err, next_fault w = Some err ->
       rows = [] /\
       trace r = [Query (SELECT_notifications userId limit) false;
                  ConsoleError "Ошибка при получении уведомлений:"
                               (Some (DbError err))]) /\
    (next_fault w = None ->
       exists rest,
         Permutation (rows ++ rest)%list
                     (filter (owned_by userId) (notifications (tables w))) /\
         StronglySorted not_older (rows ++ rest)%list /\
         (rest = [] \/ List.length rows = limit)).
Proof.
  assert (G : forall t : Tables,
    let all := NotificationSort.sort (filter (owned_by userId) (notifications t)) in
    List.length (firstn limit all) <= limit /\
    Forall (fun n => Notification.user_id n = userId /\ In n (notifications t))
           (firstn limit all) /\
    StronglySorted not_older (firstn limit all) /\
    exists rest,
      Permutation (firstn limit all ++ rest)%list (filter (owned_by userId) (notifications t)) /\
      StronglySorted not_older (firstn limit all ++ rest)%list /\
      (rest = [] \/ List.length (firstn limit all) = limit)).
  { intros t all. repeat split.
    - apply firstn_le_length.
    - apply Forall_forall. intros n Hn.
      assert (Hin : In n all).
      { rewrite <- (firstn_skipn limit all). apply in_or_app. left. exact Hn. }
      apply (Permutation_in n (Permutation_sym (NotificationSort.Permuted_sort _))) in Hin.
      apply filter_In in Hin. destruct Hin as [Hin Ho].
      split; [apply Nat.eqb_eq; exact Ho | exact Hin].
    - apply (strongly_sorted_prefix _ _ (skipn limit all)).
      rewrite firstn_skipn. apply newest_first_sorted.
    - exists (skipn limit all). rewrite firstn_skipn. repeat split.
      + apply Permutation_sym, NotificationSort.Permuted_sort.
      + apply newest_first_sorted.
      + destruct (Nat.le_gt_cases limit (List.length all)) as [L|L].
        * right. apply firstn_length_le. exact L.
        * left. apply skipn_all2. lia. }
  by_fault_schedule w.
  1, 3: destruct (G (view c)) as (L & O & S & R); eexists;
    (split; [reflexivity|]); (split; [exact L|]); (split; [exact O|]);
    (split; [exact S|]);
    (split; [intros ? H; discriminate H | intros _; exact R]).
  exists []. split; [reflexivity|]. split; [simpl; lia|].
  split; [constructor|]. split; [constructor|].
  split; [intros err0 H; inversion H; subst; split; reflexivity
         | intros H; discriminate H].
Qed.

(** C7.  markAsRead returns normally on every input and fault.  Row by
    row, a notification is either left as it was or it has the given id,
    belongs to the given user and is now read.  When no row with that id
    belongs to the user (it is another user's, or there is none) the
    connection is left exactly as it was, so every user's unread count is
    what it was. *)
Theorem markAsRead_touches_only_own (notificationId userId : nat) (w : World) :
  let r := markAsRead notificationId userId w in
  outcome_of r = Returns tt /\
  Forall2 (fun before after =>
             after = before \/
             (Notification.id before = notificationId /\
              Notification.user_id before = userId /\
              after = Notification.set_read before))
          (notifications (tables w)) (notifications (tables (world_after r))) /\
  ((forall n, In n (notifications (tables w)) ->
              Notification.id n = notificationId ->
              Notification.user_id n <> userId) ->
   conn (world_after r) = conn w /\
   forall anyone, unread_count anyone (tables (world_after r))
                  = unread_count anyone (tables w)).
Proof.
  assert (Same : forall c : Conn,
    (forall n, In n (notifications (view c)) ->
               Notification.id n = notificationId ->
               Notification.user_id n <> userId) ->
    put (with_notifications (map (mark_read notificationId userId)
                                 (notifications (view c)))
                            (next_notification_id (view c)) (view c)) c = c).
  { intros c H. rewrite mark_read_other by exact H.
    rewrite with_notifications_same. apply put_view. }
  by_fault_schedule w; unfold tables; cbn.
  - split; [reflexivity|]. rewrite view_put. cbn. split; [apply mark_read_rows|].
    intros H. split; [apply Same; exact H|].
    intros anyone. unfold unread_count. cbn.
    rewrite mark_read_other by exact H. reflexivity.
  - split; [reflexivity|]. split; [|intros _; split; reflexivity].
    apply rows_untouched. intros a. left. reflexivity.
  - split; [reflexivity|]. rewrite view_put. cbn. split; [apply mark_read_rows|].
    intros H. split; [apply Same; exact H|].
    intros anyone. unfold unread_count. cbn.
    rewrite mark_read_other by exact H. reflexivity.
Qed.

(** C8.  With no statement failing, markAllAsRead leaves the user with no
    unread notification, and a second markAllAsRead leaves the count at
    zero and the connection exactly as the first call left it. *)
Theorem markAllAsRead_zero_unread_idempotent (userId : nat) (w : World) :
  db_faults w = [] ->
  let first := markAllAsRead userId w in
  let count1 := getUnreadCount userId (world_after first) in
  let second := markAllAsRead userId (world_after count1) in
  let count2 := getUnreadCount userId (world_after second) in
  outcome_of first = Returns tt /\
  outcome_of count1 = Returns 0 /\
  outcome_of second = Returns tt /\
  outcome_of count2 = Returns 0 /\
  conn (world_after second) = conn (world_after first).
Proof.
  destruct w as [c faults replies e]. cbn. intros ->. cbn.
  rewrite !view_put. cbn. unfold unread_count. cbn.
  rewrite mark_all_read_idem, mark_all_read_none_left, put_put.
  repeat split; reflexivity.
Qed.

Lemma markAllAsRead_zero_unread_idempotent_witness :
  db_faults calm = [] /\
  outcome_of (getUnreadCount 1 (world_after (markAllAsRead 1 calm))) = Returns 0.
Proof.
  split; [reflexivity|].
  exact (proj1 (proj2 (markAllAsRead_zero_unread_idempotent 1 calm eq_refl))).
Defined.

(* ================================================================== *)
(** ** The mail module *)
(* ================================================================== *)

(** sendEmailNotification resolves, whatever the transport does; it issues
    no statement and leaves the connection alone; a [false] result is
    logged; it hands at most the one message built from its arguments to
    the transport. *)
Lemma sendEmailNotification_run (to subject content : string) (isHtml : bool) (w : World) :
  let r := sendEmailNotification to subject content isHtml w in
  exists sent,
    outcome_of r = Returns sent /\
    conn (world_after r) = conn w /\
    db_faults (world_after r) = db_faults w /\
    (sent = false -> exists line err, In (ConsoleError line err) (trace r)) /\
    (forall q ok, ~ In (Query q ok) (trace r)) /\
    (forall m ok, In (SendMail m ok) (trace r) ->
       ok = sent /\ m = mailOptions (env w) to subject content isHtml /\
       (ok = false ->
        In (ConsoleError "❌ Ошибка отправки email:" (Some TransportError)) (trace r))).
Proof.
  unfold sendEmailNotification, try_catch.
  destruct (String.eqb to EmptyString || String.eqb subject EmptyString
            || String.eqb content EmptyString) eqn:E.
  - cbn. exists false. repeat split; try reflexivity.
    + intros _. eexists _, _. left. reflexivity.
    + intros q ok H. in_trace H.
    + in_trace H.
    + in_trace H.
    + in_trace H.
  - destruct w as [c faults replies e]. destruct replies as [|[i|] replies];
      cbn -[mailOptions String.append].
    + exists true. repeat split; try reflexivity; try discriminate.
      * intros q ok H. in_trace H.
      * in_trace H. reflexivity.
      * in_trace H. reflexivity.
      * intros ->. in_trace H.
    + exists true. repeat split; try reflexivity; try discriminate.
      * intros q ok H. in_trace H.
      * in_trace H. reflexivity.
      * in_trace H. reflexivity.
      * intros ->. in_trace H.
    + exists false. repeat split; try reflexivity.
      * intros _. eexists _, _. right. left. reflexivity.
      * intros q ok H. in_trace H.
      * in_trace H. reflexivity.
      * in_trace H. reflexivity.
      * intros _. right. left. reflexivity.
Qed.

Lemma found_user_exists (uid : nat) (t : Tables) (u : User.t) (rest : list User.t) :
  filter (fun u => User.id u =? uid) (users t) = u :: rest ->
  user_exists uid t = true.
Proof.
  intros H. unfold user_exists. apply existsb_exists. exists u.
  assert (I : In u (filter (fun u => User.id u =? uid) (users t)))
    by (rewrite H; left; reflexivity).
  apply filter_In in I. exact I.
Qed.

(** The two ways sendNotification ends.  Either it returns false, having
    logged an error, sent nothing and left the connection alone; or it
    returns true after a successful SELECT and a successful INSERT of the
    notification, followed by the events of the mail step, if there is one. *)
Lemma sendNotification_cases (userId : nat) (type : string) (data : option Data.t)
    (sendEmail : bool) (w : World) :
  let r := sendNotification userId type data sendEmail w in
  (outcome_of r = Returns false /\
   conn (world_after r) = conn w /\
   (exists line err, In (ConsoleError line err) (trace r)) /\
   (forall m ok, ~ In (SendMail m ok) (trace r)))
  \/
  (exists d user tail,
     data = Some d /\
     hd_error (filter (fun u => User.id u =? userId) (users (tables w))) = Some user /\
     outcome_of r = Returns true /\
     tables (world_after r) =
       with_notifications
         (notifications (tables w) ++
          [Notification.mk (next_notification_id (tables w)) userId
             (notificationText type d) (text_param (Js.or (Data.link d) Js.Null))
             false (now (conn w))])
         (S (next_notification_id (tables w))) (tables w) /\
     trace r =
       Query (SELECT_user_email_name userId) true
       :: Query (INSERT_notification (Some userId) (notificationText type d)
                   (text_param (Js.or (Data.link d) Js.Null))) true
       :: tail /\
     (forall q ok, ~ In (Query q ok) tail) /\
     (sendEmail && Js.truthy (Js.of_option (User.email user)) = false -> tail = []) /\
     (forall m ok, In (SendMail m ok) tail ->
        sendEmail && Js.truthy (Js.of_option (User.email user)) = true /\
        m = mailOptions (env w) (Js.toString (Js.of_option (User.email user)))
              (getEmailSubject type) (generateEmailContent (env w) type d) true /\
        (ok = false ->
         In (ConsoleError "❌ Ошибка отправки email:" (Some TransportError)) tail))).
Proof.
  intros r. remember r as r' eqn:Hr. unfold r in Hr. clear r.
  destruct w as [c faults replies e]. unfold tables. cbn [conn env].
  assert (Failed : forall evs w',
    conn w' = c ->
    (exists line err, In (ConsoleError line err) evs) ->
    (forall m ok, ~ In (SendMail m ok) evs) ->
    r' = mkRun (Returns false) w' evs ->
    (outcome_of r' = Returns false /\
     conn (world_after r') = c /\
     (exists line err, In (ConsoleError line err) (trace r')) /\
     (forall m ok, ~ In (SendMail m ok) (trace r')))).
  { intros evs w' Hc Hl Hm ->. cbn. auto. }
  assert (Sent : forall (d : Data.t) (found : list User.t) (user : User.t) w2 tail,
    hd_error found = Some user ->
    conn w2 =
      put (with_notifications
             (notifications (view c) ++
              [Notification.mk (next_notification_id (view c)) userId
                 (notificationText type d)
                 (text_param (Js.or (Data.link d) Js.Null)) false (now c)])
             (S (next_notification_id (view c))) (view c)) c ->
    (forall q ok, ~ In (Query q ok) tail) ->
    (sendEmail && Js.truthy (Js.of_option (User.email user)) = false -> tail = []) ->
    (forall m ok, In (SendMail m ok) tail ->
        sendEmail && Js.truthy (Js.of_option (User.email user)) = true /\
        m = mailOptions e (Js.toString (Js.of_option (User.email user)))
              (getEmailSubject type) (generateEmailContent e type d) true /\
        (ok = false ->
         In (ConsoleError "❌ Ошибка отправки email:" (Some TransportError)) tail)) ->
    r' = mkRun (Returns true) w2
           (Query (SELECT_user_email_name userId) true
            :: Query (INSERT_notification (Some userId) (notificationText type d)
                        (text_param (Js.or (Data.link d) Js.Null))) true
            :: tail) ->
    exists d0 user0 tail0,
     Some d = Some d0 /\
     hd_error found = Some user0 /\
     outcome_of r' = Returns true /\
     view (conn (world_after r')) =
       with_notifications
         (notifications (view c) ++
          [Notification.mk (next_notification_id (view c)) userId
             (notificationText type d0) (text_param (Js.or (Data.link d0) Js.Null))
             false (now c)])
         (S (next_notification_id (view c))) (view c) /\
     trace r' =
       Query (SELECT_user_email_name userId) true
       :: Query (INSERT_notification (Some userId) (notificationText type d0)
                   (text_param (Js.or (Data.link d0) Js.Null))) true
       :: tail0 /\
     (forall q ok, ~ In (Query q ok) tail0) /\
     (sendEmail && Js.truthy (Js.of_option (User.email user0)) = false -> tail0 = []) /\
     (forall m ok, In (SendMail m ok) tail0 ->
        sendEmail && Js.truthy (Js.of_option (User.email user0)) = true /\
        m = mailOptions e (Js.toString (Js.of_option (User.email user0)))
              (getEmailSubject type) (generateEmailContent e type d0) true /\
        (ok = false ->
         In (ConsoleError "❌ Ошибка отправки email:" (Some TransportError)) tail0))).
  { intros d found user w2 tail Hf Hc Hq Hn Hm ->.
    exists d, user, tail. cbn [outcome_of world_after trace].
    rewrite Hc, view_put.
    split; [reflexivity|]. split; [exact Hf|]. split; [reflexivity|].
    split; [reflexivity|]. split; [reflexivity|]. split; [exact Hq|].
    split; [exact Hn|exact Hm]. }
  (* the SELECT *)
  destruct faults as [|[err|] faults]; run_in Hr sendNotification;
    [ | left; (eapply Failed; [| | |exact Hr];
               [reflexivity | eexists _, _; find_event | intros m ok H; in_trace H]) | ];
    (destruct (filter (fun u => User.id u =? userId) (users (view c)))
       as [|user rows] eqn:Hrows;
     [ left; (eapply Failed; [| | |exact Hr];
              [reflexivity | eexists _, _; find_event | intros m ok H; in_trace H]) | ]);
    (destruct data as [d|];
     [ | left; (eapply Failed; [| | |exact Hr];
                [reflexivity | eexists _, _; find_event | intros m ok H; in_trace H]) ]).
  (* the INSERT, on the rest of the schedule *)
  2: destruct faults as [|[err|] faults]; run_in Hr sendNotification;
    [ | left; (eapply Failed; [| | |exact Hr];
               [reflexivity | eexists _, _; find_event | intros m ok H; in_trace H]) | ].
  (* the mail step *)
  all: rewrite (found_user_exists _ _ _ _ Hrows) in Hr;
    right;
    destruct (sendEmail && Js.truthy (Js.of_option (User.email user))) eqn:Hmail;
    run_in Hr sendNotification;
    [ match type of Hr with context [sendEmailNotification ?a ?b ?k ?h ?w2] =>
        pose proof (sendEmailNotification_run a b k h w2) as L;
        destruct (sendEmailNotification a b k h w2) as [[sent|ex] w3 t3]
      end;
      cbn [outcome_of world_after trace conn db_faults env] in L;
      destruct L as (sent' & Lo & Lc & Lf & Ll & Lq & Lm); [|discriminate Lo];
      inversion Lo; subst sent'; clear Lo;
      destruct sent;
      (refine (Sent d (user :: rows) user _ _ eq_refl _ _ _ _ Hr); [exact Lc| | | ]);
      [ intros q ok H; rewrite app_nil_r in H; apply in_app_or in H;
        destruct H as [H|H]; [exact (Lq q ok H)|in_trace H]
      | intros H; rewrite Hmail in H; discriminate H
      | intros m ok H; rewrite app_nil_r in H; apply in_app_or in H;
        destruct H as [H|H]; [|in_trace H];
        destruct (Lm m ok H) as (-> & -> & _);
        split; [exact Hmail|]; split; [reflexivity|]; intros F; discriminate F
      | intros q ok H; rewrite !app_nil_r in H; exact (Lq q ok H)
      | intros H; rewrite Hmail in H; discriminate H
      | intros m ok H; rewrite !app_nil_r in H;
        destruct (Lm m ok H) as (-> & -> & Le);
        split; [exact Hmail|]; split; [reflexivity|]; intros _;
        rewrite !app_nil_r; apply Le; reflexivity ]
    | refine (Sent d (user :: rows) user _ _ eq_refl _ _ _ _ Hr);
      [ reflexivity | intros q ok H; in_trace H | reflexivity
      | intros m ok H; in_trace H ] ].
Qed.

(** C5.  sendNotification resolves on every input and under every fault of
    the database and of the transport; it never rejects.  Whenever it
    resolves to false an error line was written to the console, and a mail
    the transport refused is logged as well.  sendEmailNotification itself
    resolves on every input too. *)
Theorem sendNotification_never_raises (userId : nat) (type : string)
    (data : option Data.t) (sendEmail : bool) (w : World) :
  let r := sendNotification userId type data sendEmail w in
  (exists done,
     outcome_of r = Returns done /\
     (done = false -> exists line err, In (ConsoleError line err) (trace r))) /\
  (forall m, In (SendMail m false) (trace r) ->
     In (ConsoleError "❌ Ошибка отправки email:" (Some TransportError)) (trace r)) /\
  (forall to subject content isHtml w',
     exists sent,
       outcome_of (sendEmailNotification to subject content isHtml w') = Returns sent).
Proof.
  intros r. unfold r. clear r.
  destruct (sendNotification_cases userId type data sendEmail w)
    as [(Ho & _ & Hl & Hm) | (d & user & tail & _ & _ & Ho & _ & Ht & _ & _ & Hm)].
  - split; [exists false; split; [exact Ho | intros _; exact Hl]|].
    split; [intros m H; destruct (Hm m false H)|].
    intros to subject content isHtml w'.
    destruct (sendEmailNotification_run to subject content isHtml w') as (s & Hs & _).
    exists s. exact Hs.
  - split; [exists true; split; [exact Ho | intros F; discriminate F]|].
    split.
    + intros m H. rewrite Ht in H |- *.
      destruct H as [H|[H|H]]; [discriminate H|discriminate H|].
      right. right. apply (Hm m false H). reflexivity.
    + intros to subject content isHtml w'.
      destruct (sendEmailNotification_run to subject content isHtml w') as (s & Hs & _).
      exists s. exact Hs.
Qed.

(** C4.  Whenever sendNotification hands a mail to the transport, accepted
    or refused, the trace of the call starts with the successful SELECT and
    the successful INSERT of the notification, the mail comes after them,
    and the row is in the table when the call is over; the call still
    resolves to true. *)
Theorem notification_written_before_mail (userId : nat) (type : string)
    (data : option Data.t) (sendEmail : bool) (w : World) (m : Mail.t) (ok : bool) :
  let r := sendNotification userId type data sendEmail w in
  In (SendMail m ok) (trace r) ->
  exists text link tail,
    trace r = Query (SELECT_user_email_name userId) true
              :: Query (INSERT_notification (Some userId) text link) true
              :: tail /\
    In (SendMail m ok) tail /\
    (forall q done, ~ In (Query q done) tail) /\
    notifications (tables (world_after r)) =
      (notifications (tables w) ++
       [Notification.mk (next_notification_id (tables w)) userId text link false
                        (now (conn w))])%list /\
    outcome_of r = Returns true.
Proof.
  intros r H.
  destruct (sendNotification_cases userId type data sendEmail w)
    as [(_ & _ & _ & Hm) | (d & user & tail & _ & _ & Ho & Hn & Ht & Hq & _ & _)].
  - destruct (Hm m ok H).
  - fold r in Ho, Hn, Ht. eexists _, _, tail. split; [exact Ht|].
    split; [|split; [exact Hq|split; [rewrite Hn; reflexivity|exact Ho]]].
    rewrite Ht in H. destruct H as [H|[H|H]]; [discriminate H|discriminate H|exact H].
Qed.

(* ================================================================== *)
(** ** Read notifications stay read *)
(* ================================================================== *)

Lemma keeps_read_refl (t : Tables) : keeps_read t t.
Proof. intros id n H _. exact H. Qed.

Lemma keeps_read_trans (t1 t2 t3 : Tables) :
  keeps_read t1 t2 -> keeps_read t2 t3 -> keeps_read t1 t3.
Proof. intros H12 H23 id n H R. apply H23; [apply H12; assumption|exact R]. Qed.

Lemma keeps_read_map (f : Notification.t -> Notification.t) (k : nat) (t : Tables) :
  (forall m, Notification.id (f m) = Notification.id m) ->
  (forall m, Notification.is_read m = true -> f m = m) ->
  keeps_read t (with_notifications (map f (notifications t)) k t).
Proof.
  intros Hid Hread id n. unfold find_notification. cbn.
  induction (notifications t) as [|m l IH]; simpl; [discriminate|].
  rewrite Hid. destruct (Notification.id m =? id).
  - intros E R. inversion E; subst. rewrite (Hread n R). reflexivity.
  - exact IH.
Qed.

Lemma keeps_read_append (extra : list Notification.t) (k : nat) (t : Tables) :
  keeps_read t (with_notifications (notifications t ++ extra) k t).
Proof.
  intros id n. unfold find_notification. cbn.
  induction (notifications t) as [|m l IH]; simpl; [discriminate|].
  destruct (Notification.id m =? id); [intros E _; exact E | exact IH].
Qed.

Lemma mark_read_keeps (nid uid k : nat) (t : Tables) :
  keeps_read t (with_notifications (map (mark_read nid uid) (notifications t)) k t).
Proof.
  apply keeps_read_map; intros m; unfold mark_read.
  - destruct ((Notification.id m =? nid) && (Notification.user_id m =? uid));
      reflexivity.
  - intros R.
    destruct ((Notification.id m =? nid) && (Notification.user_id m =? uid));
      [apply set_read_of_read; exact R | reflexivity].
Qed.

Lemma mark_all_read_keeps (uid k : nat) (t : Tables) :
  keeps_read t (with_notifications (map (mark_all_read uid) (notifications t)) k t).
Proof.
  apply keeps_read_map; intros m; unfold mark_all_read.
  - destruct (unread_of uid m); reflexivity.
  - intros R. destruct (unread_of uid m);
      [apply set_read_of_read; exact R | reflexivity].
Qed.

(** One operation of the store: it returns, and what was read stays read. *)
Lemma run_op_keeps_read (op : store_op) (w : World) :
  outcome_of (run_op op w) = Returns tt /\
  keeps_read (tables w) (tables (world_after (run_op op w))).
Proof.
  destruct op as [u txt lnk|u k|u|i u|u|u ty d em]; cbn [run_op].
  - destruct w as [c faults replies e].
    destruct faults as [|[err|] faults]; run createNotification;
      try (split; [reflexivity|apply keeps_read_refl]);
      (destruct u as [u|]; [destruct (user_exists u (view c))|]);
      run createNotification;
      (split; [reflexivity|]);
      try apply keeps_read_refl;
      rewrite view_put; apply keeps_read_append.
  - by_fault_schedule w; unfold tables; cbn;
      (split; [reflexivity|apply keeps_read_refl]).
  - by_fault_schedule w; unfold tables; cbn;
      (split; [reflexivity|apply keeps_read_refl]).
  - by_fault_schedule w; unfold tables; cbn;
      (split; [reflexivity|]); try apply keeps_read_refl;
      rewrite view_put; apply mark_read_keeps.
  - by_fault_schedule w; unfold tables; cbn;
      (split; [reflexivity|]); try apply keeps_read_refl;
      rewrite view_put; apply mark_all_read_keeps.
  - unfold bind.
    destruct (sendNotification_cases u ty d em w)
      as [(Ho & Hc & _) | (d' & user & tail & _ & _ & Ho & Hn & _)];
      destruct (sendNotification u ty d em w) as [o w1 t1];
      cbn [outcome_of world_after trace] in *; subst o; cbn.
    + split; [reflexivity|]. unfold tables. rewrite Hc. apply keeps_read_refl.
    + split; [reflexivity|]. rewrite Hn. apply keeps_read_append.
Qed.

(** C10.  Over every sequence of store operations (create, list, count,
    mark read, mark all read, and the orchestrator's notify), under every
    fault schedule, the sequence runs to its end, and a notification that
    was read before it is found afterwards, by the same id, as the same
    row: still read. *)
Theorem read_notifications_stay_read (ops : list store_op) (w : World)
    (id : nat) (n : Notification.t) :
  find_notification id (tables w) = Some n ->
  Notification.is_read n = true ->
  let r := run_ops ops w in
  outcome_of r = Returns tt /\
  find_notification id (tables (world_after r)) = Some n.
Proof.
  revert w. induction ops as [|op ops IH]; intros w Hfind Hread; cbn.
  - split; [reflexivity|exact Hfind].
  - unfold run_ops in *. cbn [for_of]. unfold bind.
    destruct (run_op_keeps_read op w) as [Ho Hk].
    destruct (run_op op w) as [o w1 t1]. cbn in Ho, Hk. subst o.
    destruct (IH w1 (Hk id n Hfind Hread) Hread) as [Ho' Hf'].
    destruct (for_of ops run_op w1) as [o2 w2 t2]. cbn in *.
    split; assumption.
Qed.

Lemma read_notifications_stay_read_witness :
  find_notification 1 (tables calm) = Some (Notification.mk 1 1 "first" None true 10) /\
  find_notification 1
    (tables (world_after
       (run_ops [Create (Some 1) "again" None; MarkRead 3 1; MarkAllRead 2;
                 Notify 1 NEW_RATING (Some alice_rated_borscht) false] calm)))
  = Some (Notification.mk 1 1 "first" None true 10).
Proof.
  split; [reflexivity|].
  exact (proj2 (read_notifications_stay_read
                  [Create (Some 1) "again" None; MarkRead 3 1; MarkAllRead 2;
                   Notify 1 NEW_RATING (Some alice_rated_borscht) false]
                  calm 1 _ eq_refl eq_refl)).
Defined.

(* ================================================================== *)
(** ** The orchestrator on the rating event *)
(* ================================================================== *)

Lemma startsWith_app (p s t : string) :
  Js.startsWith p s = true -> Js.startsWith p (s ++ t) = true.
Proof.
  revert s. induction p as [|a p IH]; intros s H; [reflexivity|].
  destruct s as [|b s]; [discriminate H|]. simpl in *.
  apply andb_true_iff in H. destruct H as [E H]. rewrite E, (IH s H). reflexivity.
Qed.

Lemma startsWith_spec (p s : string) :
  Js.startsWith p s = true <-> exists t, s = (p ++ t)%string.
Proof.
  revert s. induction p as [|a p IH]; intros s; simpl.
  - split; [intros _; exists s; reflexivity | reflexivity].
  - destruct s as [|b s].
    + split; [discriminate | intros [t H]; discriminate H].
    + rewrite andb_true_iff, Ascii.eqb_eq, IH. split.
      * intros [-> [t ->]]. exists t. reflexivity.
      * intros [t H]. inversion H; subst. split; [reflexivity|exists t; reflexivity].
Qed.

(** [includes] says what it should: the needle occurs somewhere in the hay. *)
Lemma includes_spec (n h : string) :
  Js.includes n h = true <-> exists a b, h = (a ++ n ++ b)%string.
Proof.
  induction h as [|c h IH]; simpl.
  - rewrite orb_false_r, startsWith_spec. split.
    + intros [t H]. exists EmptyString, t. exact H.
    + intros [a [b H]]. destruct a; [exists b; exact H|discriminate H].
  - rewrite orb_true_iff, IH, (startsWith_spec n (String c h)). split.
    + intros [[t H]|[a [b H]]].
      * exists EmptyString, t. exact H.
      * exists (String c a), b. simpl. rewrite H. reflexivity.
    + intros [a [b H]]. destruct a as [|c' a]; simpl in H.
      * left. exists b. exact H.
      * right. inversion H; subst. exists a, b. reflexivity.
Qed.

Lemma includes_app_l (n s t : string) :
  Js.includes n s = true -> Js.includes n (s ++ t) = true.
Proof.
  induction s as [|b s IH]; simpl; intros H.
  - rewrite orb_false_r in H. destruct n; [|discriminate H].
    destruct t; reflexivity.
  - apply orb_true_iff in H. destruct H as [H|H].
    + apply (startsWith_app _ _ t) in H. simpl in H. rewrite H. reflexivity.
    + rewrite (IH H). apply orb_true_r.
Qed.

Lemma includes_app_r (n s t : string) :
  Js.includes n t = true -> Js.includes n (s ++ t) = true.
Proof.
  intros H. induction s as [|b s IH]; simpl; [exact H|].
  rewrite IH. apply orb_true_r.
Qed.

(** C3.  With the database and the transport working and the target user
    found, notifying of the rating event of the example resolves to true and
    appends exactly one notification to the table: owned by the target,
    unread, linked to /recipes/42, with a text that contains Alice, Borscht
    and 5.  It hands exactly one mail to the transport when the email flag
    is set and the user's address is non-empty, and none otherwise; that
    mail goes to the user's address, has the subject of a new rating, and
    both its text and its HTML body contain Borscht. *)
Theorem new_rating_notifies_once (userId : nat) (sendEmail : bool) (user : User.t)
    (w : World) :
  db_faults w = [] ->
  smtp w = [] ->
  hd_error (filter (fun u => User.id u =? userId) (users (tables w))) = Some user ->
  let r := sendNotification userId NEW_RATING (Some alice_rated_borscht) sendEmail w in
  let text := notificationText NEW_RATING alice_rated_borscht in
  let mail :=
    mailOptions (env w) (Js.toString (Js.of_option (User.email user)))
      "⭐ Новая оценка вашего рецепта"
      (generateEmailContent (env w) NEW_RATING alice_rated_borscht) true in
  outcome_of r = Returns true /\
  notifications (tables (world_after r)) =
    (notifications (tables w) ++
     [Notification.mk (next_notification_id (tables w)) userId text
                      (Some "/recipes/42") false (now (conn w))])%list /\
  Js.includes "Alice" text = true /\
  Js.includes "Borscht" text = true /\
  Js.includes "5" text = true /\
  mails (trace r) =
    (if sendEmail && Js.truthy (Js.of_option (User.email user))
     then [(mail, true)] else []) /\
  Mail.to mail = Js.toString (Js.of_option (User.email user)) /\
  Mail.subject mail = "⭐ Новая оценка вашего рецепта" /\
  Js.includes "Borscht" (Mail.text mail) = true /\
  exists html, Mail.html mail = Some html /\ Js.includes "Borscht" html = true.
Proof.
  intros Hf Hs Hfound r text mail.
  assert (Body : Mail.to mail = Js.toString (Js.of_option (User.email user)) /\
                 Mail.subject mail = "⭐ Новая оценка вашего рецепта" /\
                 Js.includes "Borscht" (Mail.text mail) = true /\
                 exists html, Mail.html mail = Some html /\
                              Js.includes "Borscht" html = true).
  { split; [reflexivity|]. split; [reflexivity|]. split; [vm_compute; reflexivity|].
    eexists. split; [reflexivity|]. unfold emailTemplate.
    repeat first [ apply includes_app_l; vm_compute; reflexivity
                 | apply includes_app_r ]. }
  assert (Text : Js.includes "Alice" text = true /\
                 Js.includes "Borscht" text = true /\
                 Js.includes "5" text = true)
    by (repeat split; vm_compute; reflexivity).
  destruct Text as (T1 & T2 & T3).
  cut (outcome_of r = Returns true /\
       notifications (tables (world_after r)) =
         (notifications (tables w) ++
          [Notification.mk (next_notification_id (tables w)) userId text
                           (Some "/recipes/42") false (now (conn w))])%list /\
       mails (trace r) =
         (if sendEmail && Js.truthy (Js.of_option (User.email user))
          then [(mail, true)] else [])).
  { intros (A & B & C). repeat split; try assumption; apply Body. }
  clear Body T1 T2 T3. subst mail text.
  remember r as r' eqn:Hr. unfold r in Hr. clear r.
  destruct w as [c faults replies e]. unfold tables in *.
  cbn [db_faults smtp conn env] in *. subst faults replies.
  run_in Hr sendNotification.
  destruct (filter (fun u => User.id u =? userId) (users (view c)))
    as [|user' rows] eqn:Hrows; [cbn in Hfound; discriminate Hfound|].
  cbn in Hfound. inversion Hfound; subst user'; clear Hfound.
  rewrite (found_user_exists _ _ _ _ Hrows) in Hr.
  destruct (sendEmail && Js.truthy (Js.of_option (User.email user))) eqn:Hmail.
  - run_in Hr sendEmailNotification.
    assert (E : String.eqb (Js.toString (Js.of_option (User.email user))) EmptyString
                || String.eqb (getEmailSubject NEW_RATING) EmptyString
                || String.eqb (generateEmailContent e NEW_RATING alice_rated_borscht)
                              EmptyString = false).
    { apply andb_true_iff in Hmail. destruct Hmail as [_ Ht].
      destruct (User.email user) as [s|]; [|discriminate Ht].
      cbn in Ht |- *. apply negb_true_iff in Ht. rewrite Ht. reflexivity. }
    rewrite E in Hr. run_in Hr sendEmailNotification. subst r'.
    cbn [outcome_of world_after trace conn mails]. rewrite view_put.
    repeat split; reflexivity.
  - run_in Hr sendNotification. subst r'.
    cbn [outcome_of world_after trace conn mails]. rewrite view_put.
    repeat split; reflexivity.
Qed.

Lemma new_rating_notifies_once_witness :
  db_faults calm = [] /\ smtp calm = [] /\
  hd_error (filter (fun u => User.id u =? 1) (users (tables calm))) = Some alice /\
  outcome_of (sendNotification 1 NEW_RATING (Some alice_rated_borscht) true calm)
  = Returns true.
Proof.
  split; [reflexivity|]. split; [reflexivity|]. split; [reflexivity|].
  exact (proj1 (new_rating_notifies_once 1 true alice calm eq_refl eq_refl eq_refl)).
Defined.

Lemma notification_written_before_mail_witness :
  let r := sendNotification 1 NEW_RATING (Some alice_rated_borscht) true refusing in
  let m := mailOptions plain_env "alice@example.org" (getEmailSubject NEW_RATING)
             (generateEmailContent plain_env NEW_RATING alice_rated_borscht) true in
  In (SendMail m false) (trace r) /\
  outcome_of r = Returns true /\
  exists n, In n (notifications (tables (world_after r))) /\ Notification.id n = 4.
Proof.
  intros r m.
  assert (H : In (SendMail m false) (trace r))
    by (vm_compute; right; right; left; reflexivity).
  destruct (notification_written_before_mail 1 NEW_RATING (Some alice_rated_borscht)
              true refusing m false H)
    as (text & link & tail & Ht & Hin & Hq & Hn & Ho).
  split; [exact H|]. split; [exact Ho|].
  fold r in Hn. rewrite Hn. eexists. split.
  - apply in_or_app. right. left. reflexivity.
  - reflexivity.
Defined.

(* ================================================================== *)
(** ** The rating handler *)
(* ================================================================== *)

(** createNotification returns whatever happens, consumes one entry of the
    fault schedule, and touches no table but notifications. *)
Lemma createNotification_frame (userId : option nat) (text : string)
    (link : option string) (w : World) :
  let r := createNotification userId text link w in
  outcome_of r = Returns tt /\
  db_faults (world_after r) = tl (db_faults w) /\
  recipes (tables (world_after r)) = recipes (tables w) /\
  ratings (tables (world_after r)) = ratings (tables w) /\
  (forall q ok, In (Query q ok) (trace r) ->
                q = INSERT_notification userId text link).
Proof.
  destruct w as [c faults replies e].
  destruct faults as [|[err|] faults]; run createNotification;
    try (repeat split; try reflexivity; intros q ok H; in_trace H; reflexivity);
    (destruct userId as [u|]; [destruct (user_exists u (view c))|]);
    run createNotification; rewrite ?view_put;
    (repeat split; try reflexivity; intros q ok H; in_trace H; reflexivity).
Qed.

(** C9.  When the signed-in user owns the recipe, the rating handler leaves
    the connection exactly as it was, under every fault schedule; the only
    statement it issues is the SELECT of the recipe, so neither a rating
    nor a notification is inserted; and when that SELECT goes through, the
    response is the 403 refusal. *)
Theorem own_recipe_rating_rejected (user : SessionUser) (recipeId : nat) (rating : Z)
    (recipe : Recipe.t) (w : World) :
  hd_error (filter (fun r => Recipe.id r =? recipeId) (recipes (tables w))) = Some recipe ->
  Recipe.user_id recipe = Some (session_id user) ->
  let r := post_recipe_rating (Some user) recipeId rating w in
  conn (world_after r) = conn w /\
  (forall q ok, In (Query q ok) (trace r) -> q = SELECT_recipe_owner_title recipeId) /\
  (next_fault w = None ->
   outcome_of r = Returns (Send 403 "Нельзя оценивать свой рецепт") /\
   trace r = [Query (SELECT_recipe_owner_title recipeId) true]).
Proof.
  intros Hfound Hown r. remember r as r' eqn:Hr. unfold r in Hr. clear r.
  destruct w as [c faults replies e]. unfold tables in *. cbn [conn] in *.
  destruct faults as [|[err|] faults]; run_in Hr post_recipe_rating;
    try (destruct (filter (fun r => Recipe.id r =? recipeId) (recipes (view c)))
           as [|recipe' rows]; [discriminate Hfound|];
         cbn in Hfound; inversion Hfound; subst recipe'; clear Hfound;
         rewrite Hown in Hr; cbn [col_is] in Hr; rewrite Nat.eqb_refl in Hr);
    subst r'; cbn [outcome_of world_after trace conn next_fault db_faults];
    (split; [reflexivity|]);
    (split; [intros q ok H; in_trace H; reflexivity|]);
    intros H; try discriminate H; split; reflexivity.
Qed.

Lemma rated_self (rid uid : nat) (score : Z) :
  rated rid uid (Rating.mk rid uid score) = true.
Proof. unfold rated. cbn. rewrite !Nat.eqb_refl. reflexivity. Qed.

Lemma not_rated_count (rid uid : nat) (l : list Rating.t) :
  existsb (rated rid uid) l = false -> filter (rated rid uid) l = [].
Proof.
  induction l as [|x l IH]; simpl; [reflexivity|].
  intros H. apply orb_false_iff in H. destruct H as [Hx Hl].
  rewrite Hx. exact (IH Hl).
Qed.

(** C2, as amended.  With the database working, a recipe that exists and
    is not the user's own, and no rating yet for the pair: the first
    submission redirects to the recipe and appends exactly one rating row;
    a second submission for the same pair, with any score, is answered
    400 with the already-rated text and adds nothing, so exactly the one
    row of the pair exists.  The handler does not look at the error: a
    rating INSERT that fails for any other reason gets the same answer. *)
Theorem rating_once_per_pair (user : SessionUser) (recipeId : nat) (rating rating' : Z)
    (recipe : Recipe.t) (w : World) :
  db_faults w = [] ->
  hd_error (filter (fun r => Recipe.id r =? recipeId) (recipes (tables w))) = Some recipe ->
  col_is (Recipe.user_id recipe) (session_id user) = false ->
  existsb (rated recipeId (session_id user)) (ratings (tables w)) = false ->
  let first := post_recipe_rating (Some user) recipeId rating w in
  let second := post_recipe_rating (Some user) recipeId rating' (world_after first) in
  outcome_of first = Returns (Redirect (recipe_path recipeId)) /\
  ratings (tables (world_after first)) =
    (ratings (tables w) ++ [Rating.mk recipeId (session_id user) rating])%list /\
  outcome_of second = Returns (Send 400 "Вы уже оценили этот рецепт") /\
  ratings (tables (world_after second)) = ratings (tables (world_after first)) /\
  filter (rated recipeId (session_id user)) (ratings (tables (world_after second)))
    = [Rating.mk recipeId (session_id user) rating] /\
  (forall anyError,
     let failed := post_recipe_rating (Some user) recipeId rating
                     (with_db_faults [None; Some anyError] w) in
     outcome_of failed = Returns (Send 400 "Вы уже оценили этот рецепт") /\
     conn (world_after failed) = conn w).
Proof.
  intros Hf Hfound Hother Hnone first second.
  destruct w as [c faults replies e]. unfold tables in *. cbn [conn db_faults] in *.
  subst faults.
  destruct (filter (fun r => Recipe.id r =? recipeId) (recipes (view c)))
    as [|recipe' rows] eqn:Hrows; [discriminate Hfound|].
  cbn in Hfound. inversion Hfound; subst recipe'; clear Hfound.
  (* the first submission *)
  remember first as r1 eqn:H1. unfold first in H1.
  run_in H1 post_recipe_rating.
  rewrite Hrows, Hother, Hnone in H1.
  match type of H1 with context [createNotification ?u ?t ?l ?w1] =>
    pose proof (createNotification_frame u t l w1) as F;
    destruct (createNotification u t l w1) as [o w2 t2]
  end.
  unfold tables in F. cbn [outcome_of world_after trace conn db_faults tl] in F.
  rewrite !view_put in F. cbn in F.
  destruct F as (-> & Ff & Fr & Fg & _).
  run_in H1 post_recipe_rating.
  (* the second submission *)
  remember second as r2 eqn:H2. unfold second in H2. clear first second.
  subst r1. cbn [outcome_of world_after trace] in *.
  destruct w2 as [c2 f2 s2 e2]. cbn [conn db_faults] in *. subst f2.
  run_in H2 post_recipe_rating.
  rewrite Fr, Hrows, Hother, Fg in H2.
  rewrite existsb_app in H2. cbn [existsb] in H2.
  rewrite rated_self, orb_true_r in H2. cbn [orb] in H2.
  run_in H2 post_recipe_rating. subst r2.
  cbn [outcome_of world_after trace conn].
  split; [reflexivity|]. split; [exact Fg|]. split; [reflexivity|].
  split; [reflexivity|]. split.
  - rewrite Fg, filter_app, (not_rated_count _ _ _ Hnone). cbn.
    rewrite rated_self. reflexivity.
  - intros anyError. unfold with_db_faults. cbn [conn smtp env].
    match goal with |- context [post_recipe_rating ?a ?b ?k ?w0] =>
      remember (post_recipe_rating a b k w0) as r3 eqn:H3 end.
    run_in H3 post_recipe_rating. rewrite Hrows, Hother in H3.
    run_in H3 post_recipe_rating. subst r3. split; reflexivity.
Qed.

Lemma rating_once_per_pair_witness :
  db_faults calm = [] /\
  hd_error (filter (fun r => Recipe.id r =? 42) (recipes (tables calm))) = Some borscht /\
  col_is (Recipe.user_id borscht) (session_id (session_of carol)) = false /\
  existsb (rated 42 (session_id (session_of carol))) (ratings (tables calm)) = false /\
  outcome_of (post_recipe_rating (Some (session_of carol)) 42 5 calm)
  = Returns (Redirect (recipe_path 42)).
Proof.
  split; [reflexivity|]. split; [reflexivity|]. split; [reflexivity|].
  split; [reflexivity|].
  exact (proj1 (rating_once_per_pair (session_of carol) 42 5 3 borscht calm
                  eq_refl eq_refl eq_refl eq_refl)).
Defined.

(** C2 as stated fails: the already-rated answer is not distinct.  Carol
    has rated nothing; her INSERT fails because the connection is lost, a
    failure that is no constraint violation, and she is told that she has
    already rated the recipe, in the very response Bob gets, who has. *)
Lemma rating_failure_answered_as_duplicate :
  let lost := post_recipe_rating (Some (session_of carol)) 42 5
                (with_db_faults [None; Some PROTOCOL_CONNECTION_LOST] calm) in
  let twice := post_recipe_rating (Some (session_of bob)) 42 5 calm in
  existsb (rated 42 3) (ratings (tables calm)) = false /\
  existsb (rated 42 2) (ratings (tables calm)) = true /\
  trace lost = [Query (SELECT_recipe_owner_title 42) true;
                Query (INSERT_rating 42 3 5) false] /\
  trace twice = [Query (SELECT_recipe_owner_title 42) true;
                 Query (INSERT_rating 42 2 5) false] /\
  outcome_of lost = Returns (Send 400 "Вы уже оценили этот рецепт") /\
  outcome_of twice = outcome_of lost.
Proof. repeat split. Qed.

Lemma own_recipe_rating_rejected_witness :
  hd_error (filter (fun r => Recipe.id r =? 42) (recipes (tables calm))) = Some borscht /\
  Recipe.user_id borscht = Some (session_id (session_of alice)) /\
  conn (world_after (post_recipe_rating (Some (session_of alice)) 42 5 calm)) = conn calm.
Proof.
  split; [reflexivity|]. split; [reflexivity|].
  exact (proj1 (own_recipe_rating_rejected (session_of alice) 42 5 borscht calm
                  eq_refl eq_refl)).
Defined.

(* ================================================================== *)
(** ** The admin delete cascade *)
(* ================================================================== *)

Lemma put_in_transaction (t : Tables) (c : Conn) :
  txn c <> None -> committed (put t c) = committed c /\ txn (put t c) <> None.
Proof.
  unfold put. destruct (txn c); [intros _; split; [reflexivity|discriminate]|].
  intros H. contradiction.
Qed.

Lemma execute_in_transaction (q : statement) (c c' : Conn) (r : result q) :
  is_transaction_control q = false ->
  execute q c = inr (c', r) ->
  txn c <> None ->
  committed c' = committed c /\ txn c' <> None.
Proof.
  intros Hq He Ht.
  destruct q; try discriminate Hq; cbn in He;
    unfold reads, deletes, writes in He;
    try (inversion He; subst; split; [reflexivity|exact Ht]);
    try (inversion He; subst; apply put_in_transaction; exact Ht).
  - destruct (insert_notification (now c) user_id text link (view c));
      [discriminate He|]. inversion He; subst. apply put_in_transaction; exact Ht.
  - destruct (insert_rating recipe_id user_id rating (view c));
      [discriminate He|]. inversion He; subst. apply put_in_transaction; exact Ht.
Qed.

Lemma in_transaction_ret {A : Type} (a : A) : in_transaction (ret a).
Proof.
  intros w. cbn. repeat split; auto; intros; contradiction.
Qed.

Lemma in_transaction_query (q : statement) :
  is_transaction_control q = false -> in_transaction (query q).
Proof.
  intros Hq w. unfold query.
  destruct (next_fault w) as [err|].
  - cbn. split; [auto|]. split; [discriminate|].
    intros q' ok H. in_trace H. exact Hq.
  - destruct (execute q (conn w)) as [err|[c' r]] eqn:He; cbn.
    + split; [auto|]. split; [discriminate|].
      intros q' ok H. in_trace H. exact Hq.
    + split; [apply (execute_in_transaction q _ _ r Hq He)|].
      split; [intros a _ q' H; in_trace H|].
      intros q' ok H. in_trace H. exact Hq.
Qed.

Lemma in_transaction_bind {A B : Type} (m : Async A) (k : A -> Async B) :
  in_transaction m -> (forall a, in_transaction (k a)) -> in_transaction (bind m k).
Proof.
  intros Hm Hk w. unfold bind.
  destruct (Hm w) as (Mc & Mr & Mq).
  destruct (m w) as [[a|ex] w1 t1]; cbn in *.
  - destruct (Hk a w1) as (Kc & Kr & Kq).
    destruct (k a w1) as [o w2 t2]; cbn in *.
    split; [|split].
    + intros Ht. destruct (Mc Ht) as [E1 T1]. destruct (Kc T1) as [E2 T2].
      split; [congruence|exact T2].
    + intros b Hb q H. apply in_app_or in H. destruct H as [H|H].
      * exact (Mr a eq_refl q H).
      * exact (Kr b Hb q H).
    + intros q ok H. apply in_app_or in H. destruct H as [H|H]; eauto.
  - split; [exact Mc|]. split; [discriminate|exact Mq].
Qed.

Lemma in_transaction_for_of {A : Type} (l : list A) (body : A -> Async unit) :
  (forall x, in_transaction (body x)) -> in_transaction (for_of l body).
Proof.
  intros Hb. induction l as [|x l IH]; cbn [for_of].
  - apply in_transaction_ret.
  - apply in_transaction_bind; [apply Hb|intros _; exact IH].
Qed.

Lemma delete_cascade_in_transaction (userId : nat) :
  in_transaction (delete_cascade userId).
Proof.
  unfold delete_cascade.
  repeat first
    [ apply in_transaction_ret
    | apply in_transaction_query; reflexivity
    | apply in_transaction_for_of; intros ?
    | apply in_transaction_bind; [|intros ?] ].
Qed.

(** The catch block of the delete handler: it commits nothing, issues only
    the ROLLBACK and the SELECT of the users, closes the transaction when
    the ROLLBACK goes through, and can only answer with the failure page. *)
Lemma rollback_handler_run (err : exn) (w : World) :
  let r := (query ROLLBACK ;;
            console_error EmptyString (Some err) ;;
            users <- query SELECT_users ;;
            ret (RenderAdminUsers "Пользователи" users
                   (Error "Ошибка при удалении пользователя"))) w in
  committed (conn (world_after r)) = committed (conn w) /\
  (forall q ok, In (Query q ok) (trace r) -> q = ROLLBACK \/ q = SELECT_users) /\
  (In (Query ROLLBACK true) (trace r) ->
   txn (conn (world_after r)) = None) /\
  (forall resp, outcome_of r = Returns resp ->
     exists users, resp = RenderAdminUsers "Пользователи" users
                            (Error "Ошибка при удалении пользователя")).
Proof.
  destruct w as [c faults replies e].
  destruct faults as [|[e1|] [|[e2|] faults]]; cbn -[UserSort.sort];
    (split; [reflexivity|]);
    (split; [intros q ok H; in_trace H; auto|]);
    (split; [intros H; in_trace H; reflexivity|]);
    intros resp H; inversion H; eexists; reflexivity.
Qed.

Lemma bind_cases {A B : Type} (m : Async A) (k : A -> Async B) (w : World) :
  (exists a,
     outcome_of (m w) = Returns a /\
     outcome_of (bind m k w) = outcome_of (k a (world_after (m w))) /\
     world_after (bind m k w) = world_after (k a (world_after (m w))) /\
     trace (bind m k w) = (trace (m w) ++ trace (k a (world_after (m w))))%list)
  \/
  (exists ex,
     outcome_of (m w) = Throws ex /\
     outcome_of (bind m k w) = Throws ex /\
     world_after (bind m k w) = world_after (m w) /\
     trace (bind m k w) = trace (m w)).
Proof.
  unfold bind. destruct (m w) as [[a|ex] w1 t1]; cbn.
  - left. exists a. destruct (k a w1); cbn. repeat split; reflexivity.
  - right. exists ex. repeat split; reflexivity.
Qed.

Lemma try_catch_cases {A : Type} (body : Async A) (handler : exn -> Async A) (w : World) :
  (exists a, outcome_of (body w) = Returns a /\ try_catch body handler w = body w)
  \/
  (exists ex,
     outcome_of (body w) = Throws ex /\
     outcome_of (try_catch body handler w)
       = outcome_of (handler ex (world_after (body w))) /\
     world_after (try_catch body handler w)
       = world_after (handler ex (world_after (body w))) /\
     trace (try_catch body handler w)
       = (trace (body w) ++ trace (handler ex (world_after (body w))))%list).
Proof.
  unfold try_catch. destruct (body w) as [[a|ex] w1 t1]; cbn.
  - left. exists a. split; reflexivity.
  - right. exists ex. destruct (handler ex w1); cbn. repeat split; reflexivity.
Qed.

Lemma query_run (q : statement) (w : World) :
  (exists res c',
     execute q (conn w) = inr (c', res) /\
     outcome_of (query q w) = Returns res /\
     conn (world_after (query q w)) = c' /\
     trace (query q w) = [Query q true])
  \/
  (exists err,
     outcome_of (query q w) = Throws (DbError err) /\
     conn (world_after (query q w)) = conn w /\
     trace (query q w) = [Query q false]).
Proof.
  unfold query. destruct (next_fault w) as [err|].
  - right. exists err. repeat split; reflexivity.
  - destruct (execute q (conn w)) as [err|[c' res]].
    + right. exists err. repeat split; reflexivity.
    + left. exists res, c'. repeat split; reflexivity.
Qed.

(** The try block of the delete handler, up to the end of the cascade:
    when one of the cascading DELETEs failed, the block threw, nothing was
    committed since START TRANSACTION, and no ROLLBACK was issued yet. *)
Lemma delete_try_block_run (userId : nat) (rest : option User.t -> Async response)
    (w : World) (q : statement) :
  (forall u w' q' ok, In (Query q' ok) (trace (rest u w')) ->
                      is_cascade_delete q' = false) ->
  let r := (query START_TRANSACTION ;; bind (delete_cascade userId) rest) w in
  is_cascade_delete q = true ->
  In (Query q false) (trace r) ->
  (exists err, outcome_of r = Throws err) /\
  committed (conn (world_after r)) = tables w /\
  (forall ok, ~ In (Query ROLLBACK ok) (trace r)).
Proof.
  intros Hrest r Hq Hin. unfold r in *. clear r.
  destruct (bind_cases (query START_TRANSACTION)
              (fun _ => bind (delete_cascade userId) rest) w)
    as [(a & Ho & Eo & Ew & Et) | (ex & Ho & Eo & Ew & Et)];
    rewrite Et in Hin; rewrite Eo, Ew, Et; clear Eo Ew Et;
    destruct (query_run START_TRANSACTION w)
      as [(res & c' & He & Ho' & Hc & Ht) | (err & Ho' & Hc & Ht)];
    rewrite Ho' in Ho; try discriminate Ho; rewrite Ht in Hin |- *;
    cbv beta in Hin |- *; cbn [app] in Hin |- *.
  - cbn in He. injection He as Hc' _. rewrite <- Hc' in Hc. clear Hc'.
    set (w1 := world_after (query START_TRANSACTION w)) in *.
    destruct Hin as [Hin|Hin]; [discriminate Hin|].
    destruct (delete_cascade_in_transaction userId w1) as (Kc & Kr & Kq).
    rewrite Hc in Kc. cbn [txn committed] in Kc.
    destruct (bind_cases (delete_cascade userId) rest w1)
      as [(u & Hu & Eo & Ew & Et) | (ex & Hu & Eo & Ew & Et)];
      rewrite Et in Hin; rewrite Eo, Ew, Et; clear Eo Ew Et.
    + apply in_app_or in Hin. destruct Hin as [Hin|Hin].
      * destruct (Kr u Hu q Hin).
      * rewrite (Hrest _ _ _ _ Hin) in Hq. discriminate Hq.
    + split; [exists ex; reflexivity|].
      split; [apply Kc; discriminate|].
      intros ok [F|F]; [discriminate F|]. apply Kq in F. discriminate F.
  - destruct Hin as [Hin|[]]. inversion Hin; subst q. discriminate Hq.
Qed.

(** What follows the cascade in the try block issues COMMIT and the SELECT
    of the users, nothing of the cascade. *)
Lemma after_cascade_no_delete (user : option User.t) (w : World) (q : statement)
    (ok : bool) :
  In (Query q ok)
     (trace ((query COMMIT ;;
              users <- query SELECT_users ;;
              match user with
              | None =>
                  throw (TypeError "Cannot read properties of undefined (reading 'login')")
              | Some u =>
                  ret (RenderAdminUsers "Пользователи" users
                         (Message ("Пользователь " ++ User.login u
                                     ++ " и все его данные удалены!")))
              end) w)) ->
  is_cascade_delete q = false.
Proof.
  destruct w as [c faults replies e].
  destruct faults as [|[e1|] [|[e2|] faults]]; destruct user as [u|];
    cbn -[UserSort.sort String.append]; intros H; in_trace H; reflexivity.
Qed.

Lemma rollback_handler_issues_rollback (err : exn) (w : World) :
  exists ok,
    In (Query ROLLBACK ok)
       (trace ((query ROLLBACK ;;
                console_error EmptyString (Some err) ;;
                users <- query SELECT_users ;;
                ret (RenderAdminUsers "Пользователи" users
                       (Error "Ошибка при удалении пользователя"))) w)).
Proof.
  destruct w as [c faults replies e].
  destruct faults as [|[e1|] [|[e2|] faults]]; cbn -[UserSort.sort];
    eexists; left; reflexivity.
Qed.

(** The delete handler with all its statements on one connection.  If a
    DELETE of the cascade fails, the handler issues ROLLBACK and nothing
    of the deletion is committed: the committed tables are those the
    connection saw before the request.  When the ROLLBACK goes through,
    the transaction is closed and the connection sees exactly the tables
    it saw before; and the only response the handler can give is the
    generic failure page. *)
Lemma cascade_failure_on_one_connection (session : option SessionUser) (userId : nat)
    (w : World) (q : statement) :
  let r := post_admin_users_delete session userId w in
  is_cascade_delete q = true ->
  In (Query q false) (trace r) ->
  (exists ok, In (Query ROLLBACK ok) (trace r)) /\
  committed (conn (world_after r)) = tables w /\
  (In (Query ROLLBACK true) (trace r) ->
   txn (conn (world_after r)) = None /\ tables (world_after r) = tables w) /\
  (forall resp, outcome_of r = Returns resp ->
     exists users,
       resp = RenderAdminUsers "Пользователи" users
                (Error "Ошибка при удалении пользователя")).
Proof.
  intros r Hq Hin. unfold r in *. clear r.
  unfold post_admin_users_delete, requireAdmin in *.
  destruct session as [admin|]; [|destruct Hin].
  destruct (String.eqb (session_role admin) "admin"); [|destruct Hin].
  destruct (session_id admin =? userId).
  - exfalso. destruct w as [c faults replies e].
    destruct faults as [|[e1|] faults]; cbn -[UserSort.sort] in Hin; in_trace Hin;
      discriminate Hq.
  - match goal with |- context [try_catch ?body ?handler w] =>
      destruct (try_catch_cases body handler w)
        as [(a & Ho & E) | (ex & Ho & Eo & Ew & Et)]
    end.
    + exfalso. rewrite E in Hin.
      match type of Hin with context [bind (delete_cascade userId) ?rest] =>
        destruct (delete_try_block_run userId rest w q
                    (fun u w' q' ok H => after_cascade_no_delete u w' q' ok H) Hq Hin)
          as ((err & Hthrow) & _)
      end.
      rewrite Hthrow in Ho. discriminate Ho.
    + rewrite Et in Hin. rewrite Eo, Ew, Et. clear Eo Ew Et.
      cbv beta in Hin |- *.
      match goal with |- context [world_after (?h (world_after ?b))] =>
        set (thrown := b) in *;
        pose proof (rollback_handler_run ex (world_after thrown)) as L;
        cbv zeta in L; destruct L as (Lc & Lq & Lr & Lo)
      end.
      assert (Hbody : In (Query q false) (trace thrown)).
      { apply in_app_or in Hin. destruct Hin as [Hin|Hin]; [exact Hin|].
        destruct (Lq q false Hin) as [F|F]; subst q; discriminate Hq. }
      unfold thrown in Hbody.
      match type of Hbody with context [bind (delete_cascade userId) ?rest] =>
        destruct (delete_try_block_run userId rest w q
                    (fun u w' q' ok H => after_cascade_no_delete u w' q' ok H) Hq Hbody)
          as (_ & Hc & Hnr)
      end.
      fold thrown in Hc, Hnr.
      split.
      { destruct (rollback_handler_issues_rollback ex (world_after thrown))
          as (ok & Hok).
        exists ok. apply in_or_app. right. exact Hok. }
      split; [rewrite Lc; exact Hc|]. split; [|exact Lo].
      intros Hrb. apply in_app_or in Hrb. destruct Hrb as [Hrb|Hrb];
        [destruct (Hnr true Hrb)|].
      pose proof (Lr Hrb) as Hclosed. split; [exact Hclosed|].
      unfold tables at 1. unfold view. rewrite Hclosed, Lc. exact Hc.
Qed.

(* ================================================================== *)
(** ** More of the notification store *)
(* ================================================================== *)

Import Measure.

Lemma unread_count_append (v : nat) (l : list Notification.t) (n : Notification.t)
    (k : nat) (t : Tables) :
  unread_count v (with_notifications (l ++ [n]) k t)
  = List.length (filter (unread_of v) l) + (if unread_of v n then 1 else 0).
Proof.
  unfold unread_count. cbn. rewrite filter_app, length_app. cbn.
  destruct (unread_of v n); reflexivity.
Qed.

(** X1.  With the database working and the owner a user, createNotification
    appends exactly one row: the next id, the given owner, text and link,
    unread, stamped with the server clock.  The owner's unread count grows
    by one and nobody else's changes. *)
Theorem createNotification_appends_one_unread (userId : nat) (text : string)
    (link : option string) (w : World) :
  db_faults w = [] ->
  user_exists userId (tables w) = true ->
  let r := createNotification (Some userId) text link w in
  outcome_of r = Returns tt /\
  notifications (tables (world_after r)) =
    (notifications (tables w) ++
     [Notification.mk (next_notification_id (tables w)) userId text link false
                      (now (conn w))])%list /\
  unread_count userId (tables (world_after r)) = S (unread_count userId (tables w)) /\
  (forall other, other <> userId ->
     unread_count other (tables (world_after r)) = unread_count other (tables w)).
Proof.
  intros Hf Hu r. unfold r. clear r.
  destruct w as [c faults replies e]. unfold tables in *. cbn [conn db_faults] in *.
  subst faults. run createNotification. rewrite Hu. run createNotification.
  rewrite view_put. split; [reflexivity|]. split; [reflexivity|].
  split.
  - rewrite unread_count_append. unfold unread_of at 2. cbn.
    rewrite Nat.eqb_refl. cbn. unfold unread_count. lia.
  - intros other Ho. rewrite unread_count_append. unfold unread_of at 2. cbn.
    apply Nat.eqb_neq in Ho. rewrite Nat.eqb_sym, Ho. cbn. unfold unread_count. lia.
Qed.

Lemma createNotification_appends_one_unread_witness :
  db_faults calm = [] /\ user_exists 2 (tables calm) = true /\
  unread_count 2 (tables (world_after (createNotification (Some 2) "hello" None calm))) = 2.
Proof.
  split; [reflexivity|]. split; [reflexivity|].
  exact (proj1 (proj2 (proj2 (createNotification_appends_one_unread 2 "hello" None calm
                                eq_refl eq_refl)))).
Defined.

(** X2.  createNotification never raises.  When its INSERT fails, by a
    fault of the database or because the row is refused, the connection is
    left exactly as it was and the error is written to the console. *)
Theorem createNotification_failure_is_silent (userId : option nat) (text : string)
    (link : option string) (w : World) :
  let r := createNotification userId text link w in
  outcome_of r = Returns tt /\
  (In (Query (INSERT_notification userId text link) false) (trace r) ->
   conn (world_after r) = conn w /\
   exists err,
     trace r = [Query (INSERT_notification userId text link) false;
                ConsoleError "Ошибка при создании уведомления:" (Some (DbError err))]).
Proof.
  destruct w as [c faults replies e].
  destruct faults as [|[err|] faults]; run createNotification;
    try (split; [reflexivity|]; intros _; split; [reflexivity|eexists; reflexivity]);
    (destruct userId as [u|]; [destruct (user_exists u (view c))|]);
    run createNotification;
    (split; [reflexivity|]); intros H;
    try (in_trace H; fail);
    (split; [reflexivity|eexists; reflexivity]).
Qed.

(** X3.  getUnreadCount never writes.  When its statement goes through it
    returns the number of the user's unread notifications; when the
    statement fails it returns 0 and logs the fault. *)
Theorem getUnreadCount_counts_or_zero (userId : nat) (w : World) :
  let r := getUnreadCount userId w in
  conn (world_after r) = conn w /\
  (next_fault w = None ->
   outcome_of r = Returns (unread_count userId (tables w))) /\
  (forall err, next_fault w = Some err ->
     outcome_of r = Returns 0 /\
     trace r = [Query (SELECT_unread_count userId) false;
                ConsoleError "Ошибка при подсчете непрочитанных:" (Some (DbError err))]).
Proof.
  by_fault_schedule w; (split; [reflexivity|]); split;
    try (intros H; discriminate H); try (intros ? H; discriminate H);
    try reflexivity.
  intros err0 H. inversion H; subst. split; reflexivity.
Qed.

Lemma mark_read_idem (nid uid : nat) (l : list Notification.t) :
  map (mark_read nid uid) (map (mark_read nid uid) l) = map (mark_read nid uid) l.
Proof.
  rewrite map_map. apply map_ext. intros n. unfold mark_read.
  destruct ((Notification.id n =? nid) && (Notification.user_id n =? uid)) eqn:E;
    cbn; rewrite E; reflexivity.
Qed.

(** X4.  With the database working, after markAsRead every notification
    with that id that belongs to the user is read, and a second markAsRead
    with the same arguments leaves the connection exactly as the first
    call left it. *)
Theorem markAsRead_marks_and_is_idempotent (notificationId userId : nat) (w : World) :
  db_faults w = [] ->
  let first := markAsRead notificationId userId w in
  let second := markAsRead notificationId userId (world_after first) in
  (forall n, In n (notifications (tables (world_after first))) ->
             Notification.id n = notificationId ->
             Notification.user_id n = userId ->
             Notification.is_read n = true) /\
  outcome_of second = Returns tt /\
  conn (world_after second) = conn (world_after first).
Proof.
  destruct w as [c faults replies e]. cbn [db_faults]. intros ->.
  cbn. unfold tables. cbn. rewrite !view_put. cbn.
  rewrite mark_read_idem, put_put. split; [|split; reflexivity].
  intros n Hn Hi Hu. apply in_map_iff in Hn. destruct Hn as (m & Hm & _).
  subst n. unfold mark_read in *.
  destruct ((Notification.id m =? notificationId) && (Notification.user_id m =? userId))
    eqn:E; [reflexivity|].
  rewrite Hi, Hu, !Nat.eqb_refl in E. discriminate E.
Qed.

Lemma markAsRead_marks_and_is_idempotent_witness :
  db_faults calm = [] /\
  conn (world_after (markAsRead 3 1 (world_after (markAsRead 3 1 calm))))
  = conn (world_after (markAsRead 3 1 calm)).
Proof.
  split; [reflexivity|].
  exact (proj2 (proj2 (markAsRead_marks_and_is_idempotent 3 1 calm eq_refl))).
Defined.

(** X5.  markAllAsRead returns normally under every fault and changes
    nothing but the read flag of the user's own unread rows: row by row a
    notification is as it was, or it was an unread one of the user and is
    now read.  Every other user's notifications, and so their unread
    count, are exactly as before. *)
Theorem markAllAsRead_leaves_others (userId : nat) (w : World) :
  let r := markAllAsRead userId w in
  outcome_of r = Returns tt /\
  Forall2 (fun before after =>
             after = before \/
             (Notification.user_id before = userId /\
              Notification.is_read before = false /\
              after = Notification.set_read before))
          (notifications (tables w)) (notifications (tables (world_after r))) /\
  (forall other, other <> userId ->
     filter (owned_by other) (notifications (tables (world_after r)))
     = filter (owned_by other) (notifications (tables w)) /\
     unread_count other (tables (world_after r)) = unread_count other (tables w)).
Proof.
  assert (Rows : forall l,
    Forall2 (fun before after =>
               after = before \/
               (Notification.user_id before = userId /\
                Notification.is_read before = false /\
                after = Notification.set_read before))
            l (map (mark_all_read userId) l)).
  { induction l as [|n l IH]; cbn; constructor; [|exact IH].
    unfold mark_all_read, unread_of.
    destruct (Nat.eqb_spec (Notification.user_id n) userId) as [E|E]; cbn;
      [|left; reflexivity].
    destruct (Notification.is_read n) eqn:F; cbn; [left; reflexivity|].
    right. repeat split; assumption. }
  assert (Others : forall other l, other <> userId ->
    filter (owned_by other) (map (mark_all_read userId) l) = filter (owned_by other) l /\
    filter (unread_of other) (map (mark_all_read userId) l) = filter (unread_of other) l).
  { intros other l Ho. induction l as [|n l [IH1 IH2]]; cbn; [split; reflexivity|].
    rewrite IH1, IH2. unfold mark_all_read, unread_of, owned_by.
    destruct (Nat.eqb_spec (Notification.user_id n) userId) as [E|E]; cbn;
      [|split; reflexivity].
    destruct (Notification.is_read n) eqn:F; cbn; [rewrite F; split; reflexivity|].
    assert (N : (Notification.user_id n =? other) = false)
      by (apply Nat.eqb_neq; congruence).
    rewrite N. cbn. split; reflexivity. }
  by_fault_schedule w; unfold tables; cbn; rewrite ?view_put; cbn;
    (split; [reflexivity|]); split;
    try apply Rows;
    try (apply rows_untouched; intros a; left; reflexivity);
    intros other Ho; unfold unread_count; cbn;
    try (split; reflexivity);
    destruct (Others other (notifications (view c)) Ho) as [O1 O2];
    rewrite O1, O2; split; reflexivity.
Qed.

(** X6.  With the database working and the owner a user, after [n]
    createNotification calls for that owner, and nothing marked read in
    between, getUnreadCount answers [n] more than the owner had unread
    before, and every other user's unread count is what it was. *)
Theorem unread_count_after_creates (n userId : nat) (text : string)
    (link : option string) (w : World) :
  db_faults w = [] ->
  user_exists userId (tables w) = true ->
  let after := world_after (run_ops (repeat (Create (Some userId) text link) n) w) in
  outcome_of (getUnreadCount userId after)
  = Returns (n + unread_count userId (tables w)) /\
  (forall other, other <> userId ->
     unread_count other (tables after) = unread_count other (tables w)).
Proof.
  intros Hf Hu after. unfold after. clear after.
  assert (Step : forall w0,
    db_faults w0 = [] -> user_exists userId (tables w0) = true ->
    let w1 := world_after (createNotification (Some userId) text link w0) in
    outcome_of (createNotification (Some userId) text link w0) = Returns tt /\
    db_faults w1 = [] /\ user_exists userId (tables w1) = true /\
    unread_count userId (tables w1) = S (unread_count userId (tables w0)) /\
    (forall other, other <> userId ->
       unread_count other (tables w1) = unread_count other (tables w0))).
  { intros [c faults replies e]. unfold tables. cbn [conn db_faults].
    intros -> Hu0. run createNotification. rewrite Hu0. run createNotification.
    rewrite view_put. split; [reflexivity|]. split; [reflexivity|].
    split; [exact Hu0|]. split.
    - rewrite unread_count_append. unfold unread_of at 2. cbn.
      rewrite Nat.eqb_refl. cbn. unfold unread_count. lia.
    - intros other Ho. rewrite unread_count_append. unfold unread_of at 2. cbn.
      apply Nat.eqb_neq in Ho. rewrite Nat.eqb_sym, Ho. cbn. unfold unread_count. lia. }
  revert w Hf Hu. induction n as [|n IH]; intros w Hf Hu.
  - cbn [repeat run_ops for_of ret world_after]. split; [|reflexivity].
    destruct w as [c faults replies e]. cbn [db_faults] in Hf. subst faults.
    reflexivity.
  - cbn [repeat]. unfold run_ops. cbn [for_of run_op]. unfold bind.
    destruct (Step w Hf Hu) as (So & Sf & Su & Sc & Sother).
    destruct (createNotification (Some userId) text link w) as [o w1 t1].
    cbn [outcome_of world_after] in *. subst o.
    destruct (IH w1 Sf Su) as [Ic Iother]. unfold run_ops in Ic, Iother.
    destruct (for_of (repeat (Create (Some userId) text link) n) run_op w1)
      as [o2 w2 t2]. cbn [world_after] in *.
    split.
    + rewrite Ic, Sc. f_equal. lia.
    + intros other Ho. rewrite (Iother other Ho). apply Sother. exact Ho.
Qed.

Lemma unread_count_after_creates_witness :
  db_faults calm = [] /\ user_exists 1 (tables calm) = true /\
  outcome_of (getUnreadCount 1
                (world_after (run_ops (repeat (Create (Some 1) "again" None) 3) calm)))
  = Returns 4.
Proof.
  split; [reflexivity|]. split; [reflexivity|].
  exact (proj1 (unread_count_after_creates 3 1 "again" None calm eq_refl eq_refl)).
Defined.

(* ================================================================== *)
(** ** The notification pages *)
(* ================================================================== *)


(** X8.  The notifications page never answers 500 and marks nothing as
    read: a signed-in user gets the page with at most fifty notifications
    and a count of 0 shown, whatever the store holds and whatever fails,
    and the connection is left as it was, so the unread notifications are
    still unread.  Without a session the answer is a redirect to /login
    and no statement is issued. *)
Theorem notifications_page_marks_nothing (session : option SessionUser) (w : World) :
  let r := Pages.get_notifications session w in
  conn (world_after r) = conn w /\
  (session = None ->
   outcome_of r = Returns (Pages.RedirectTo "/login") /\ trace r = []) /\
  (forall user, session = Some user ->
     exists rows,
       outcome_of r = Returns (Pages.NotificationsPage "Уведомления" rows 0) /\
       List.length rows <= 50 /\
       unread_count (session_id user) (tables (world_after r))
       = unread_count (session_id user) (tables w)).
Proof.
  destruct session as [user|].
  - destruct w as [c faults replies e].
    destruct faults as [|[err|] faults]; cbn -[NotificationSort.sort firstn];
      (split; [reflexivity|]);
      (split; [intros H; discriminate H|]);
      intros u H; eexists; (split; [reflexivity|]);
      (split; [try apply firstn_le_length; cbn; lia|reflexivity]).
  - cbn. split; [reflexivity|]. split; [intros _; split; reflexivity|].
    intros u H. discriminate H.
Qed.

(** X9.  The mark-read route answers success whatever happened.  Without a
    session it redirects to /login and issues no statement.  With a
    session the answer is always the JSON success flag set to true, also
    when the notification is not the user's or does not exist, and also
    when the UPDATE failed: in both cases the connection is exactly as it
    was. *)
Theorem mark_read_route_always_succeeds (session : option SessionUser)
    (notificationId : nat) (w : World) :
  let r := Pages.post_notification_read session notificationId w in
  (session = None ->
   outcome_of r = Returns (Pages.RedirectTo "/login") /\
   trace r = [] /\ conn (world_after r) = conn w) /\
  (forall user, session = Some user ->
     outcome_of r = Returns (Pages.JsonSuccess true) /\
     ((forall n, In n (notifications (tables w)) ->
                 Notification.id n = notificationId ->
                 Notification.user_id n <> session_id user) ->
      conn (world_after r) = conn w) /\
     (forall err, next_fault w = Some err -> conn (world_after r) = conn w)).
Proof.
  destruct session as [user|].
  - split; [intros H; discriminate H|]. intros u H. inversion H; subst u; clear H.
    by_fault_schedule w; unfold tables; cbn; (split; [reflexivity|]); split;
      try reflexivity; try (intros ? H; discriminate H);
      try (intros H; rewrite mark_read_other by exact H;
           rewrite with_notifications_same; apply put_view).
  - cbn. split; [intros _; repeat split|]. intros u H. discriminate H.
Qed.

(** X10.  The read-all route answers success whatever happened.  With the
    database working the count route then answers 0; when the UPDATE of
    the read-all failed, the answer was success all the same and the count
    route goes on answering the unread count from before. *)
Theorem read_all_route_success_is_unconditional (user : SessionUser) (w : World) :
  let r := Pages.post_notifications_read_all (Some user) w in
  let counted := Pages.get_notifications_count (Some user) (world_after r) in
  outcome_of r = Returns (Pages.JsonSuccess true) /\
  (db_faults w = [] -> outcome_of counted = Returns (Pages.JsonCount 0)) /\
  (forall err, db_faults w = [Some err] ->
     outcome_of counted
     = Returns (Pages.JsonCount (unread_count (session_id user) (tables w)))).
Proof.
  destruct w as [c faults replies e]. cbn [db_faults]. unfold tables. cbn [conn].
  split; [destruct faults as [|[err|] faults]; reflexivity|]. split.
  - intros ->. cbn. rewrite view_put. unfold unread_count. cbn.
    rewrite mark_all_read_none_left. reflexivity.
  - intros err ->. reflexivity.
Qed.

(* ================================================================== *)
(** ** More of the rating handler *)
(* ================================================================== *)

Lemma now_put (t : Tables) (c : Conn) : now (put t c) = now c.
Proof. unfold put. destruct (txn c); reflexivity. Qed.

(** X11.  Rating a recipe that does not exist is never answered: the
    handler reads user_id off an undefined row outside any try block, so
    the request ends in a rejected promise.  Only the SELECT was issued
    and the connection is as it was. *)
Theorem rating_missing_recipe_rejects (user : SessionUser) (recipeId : nat)
    (rating : Z) (w : World) :
  filter (fun r => Recipe.id r =? recipeId) (recipes (tables w)) = [] ->
  let r := post_recipe_rating (Some user) recipeId rating w in
  (exists thrown, outcome_of r = Throws thrown) /\
  (next_fault w = None ->
   outcome_of r
   = Throws (TypeError "Cannot read properties of undefined (reading 'user_id')")) /\
  conn (world_after r) = conn w /\
  (forall q ok, In (Query q ok) (trace r) -> q = SELECT_recipe_owner_title recipeId).
Proof.
  intros Hnone r. remember r as r' eqn:Hr. unfold r in Hr. clear r.
  destruct w as [c faults replies e]. unfold tables in *. cbn [conn] in *.
  destruct faults as [|[err|] faults]; run_in Hr post_recipe_rating;
    rewrite ?Hnone in Hr; subst r';
    cbn [outcome_of world_after trace conn next_fault db_faults];
    (split; [eexists; reflexivity|]);
    (split; [intros H; try discriminate H; reflexivity|]);
    (split; [reflexivity|]); intros q ok H; in_trace H; reflexivity.
Qed.

Lemma rating_missing_recipe_rejects_witness :
  filter (fun r => Recipe.id r =? 7) (recipes (tables calm)) = [] /\
  conn (world_after (post_recipe_rating (Some (session_of carol)) 7 5 calm)) = conn calm.
Proof.
  split; [reflexivity|].
  exact (proj1 (proj2 (proj2 (rating_missing_recipe_rejects (session_of carol) 7 5 calm
                                 eq_refl)))).
Defined.

(** X12.  With the database working, a first rating of another user's
    recipe, whose owner is a user, redirects to the recipe, appends the
    rating row, and appends exactly one notification for the owner:
    unread, linked to the recipe, with a text that names the rater, the
    recipe title and the score. *)
Theorem rating_notifies_owner (user : SessionUser) (recipeId owner : nat) (rating : Z)
    (recipe : Recipe.t) (w : World) :
  db_faults w = [] ->
  hd_error (filter (fun r => Recipe.id r =? recipeId) (recipes (tables w))) = Some recipe ->
  Recipe.user_id recipe = Some owner ->
  owner <> session_id user ->
  user_exists owner (tables w) = true ->
  existsb (rated recipeId (session_id user)) (ratings (tables w)) = false ->
  let r := post_recipe_rating (Some user) recipeId rating w in
  outcome_of r = Returns (Redirect (recipe_path recipeId)) /\
  ratings (tables (world_after r)) =
    (ratings (tables w) ++ [Rating.mk recipeId (session_id user) rating])%list /\
  notifications (tables (world_after r)) =
    (notifications (tables w) ++
     [Notification.mk (next_notification_id (tables w)) owner
        ("Пользователь " ++ session_name user ++ " оценил ваш рецепт "
           ++ Js.dq ++ Recipe.title recipe ++ Js.dq ++ " на "
           ++ Js.string_of_Z rating ++ " ⭐")
        (Some (recipe_path recipeId)) false (now (conn w))])%list.
Proof.
  intros Hf Hfound Howner Hother Hexists Hnone r.
  remember r as r' eqn:Hr. unfold r in Hr. clear r.
  destruct w as [c faults replies e]. unfold tables in *. cbn [conn db_faults] in *.
  subst faults.
  destruct (filter (fun r => Recipe.id r =? recipeId) (recipes (view c)))
    as [|recipe' rows] eqn:Hrows; [discriminate Hfound|].
  cbn in Hfound. inversion Hfound; subst recipe'; clear Hfound.
  run_in Hr post_recipe_rating. rewrite Hrows, Howner in Hr. cbn [col_is] in Hr.
  apply Nat.eqb_neq in Hother. rewrite Hother, Hnone in Hr.
  run_in Hr createNotification. rewrite view_put in Hr.
  change (user_exists owner
            (with_ratings (ratings (view c) ++
                           [Rating.mk recipeId (session_id user) rating]) (view c)))
    with (user_exists owner (view c)) in Hr.
  rewrite Hexists in Hr. run_in Hr createNotification. subst r'.
  cbn [outcome_of world_after conn]. rewrite view_put, now_put.
  split; [reflexivity|]. split; reflexivity.
Qed.

Lemma rating_notifies_owner_witness :
  db_faults calm = [] /\
  hd_error (filter (fun r => Recipe.id r =? 42) (recipes (tables calm))) = Some borscht /\
  Recipe.user_id borscht = Some 1 /\ 1 <> session_id (session_of carol) /\
  user_exists 1 (tables calm) = true /\
  existsb (rated 42 (session_id (session_of carol))) (ratings (tables calm)) = false /\
  outcome_of (post_recipe_rating (Some (session_of carol)) 42 5 calm)
  = Returns (Redirect (recipe_path 42)).
Proof.
  assert (N : 1 <> session_id (session_of carol)) by (cbn; discriminate).
  split; [reflexivity|]. split; [reflexivity|]. split; [reflexivity|].
  split; [exact N|]. split; [reflexivity|]. split; [reflexivity|].
  exact (proj1 (rating_notifies_owner (session_of carol) 42 1 5 borscht calm
                  eq_refl eq_refl eq_refl N eq_refl eq_refl)).
Defined.

(** X13.  A rating is kept when notifying the owner fails.  When the rating
    INSERT goes through and the notification INSERT fails, the handler
    still redirects to the recipe, the rating row is there, no
    notification was added, and the failure is only logged. *)
Theorem rating_survives_failed_notification (user : SessionUser) (recipeId : nat)
    (rating : Z) (recipe : Recipe.t) (err : error) (w : World) :
  db_faults w = [None; None; Some err] ->
  hd_error (filter (fun r => Recipe.id r =? recipeId) (recipes (tables w))) = Some recipe ->
  col_is (Recipe.user_id recipe) (session_id user) = false ->
  existsb (rated recipeId (session_id user)) (ratings (tables w)) = false ->
  let r := post_recipe_rating (Some user) recipeId rating w in
  outcome_of r = Returns (Redirect (recipe_path recipeId)) /\
  ratings (tables (world_after r)) =
    (ratings (tables w) ++ [Rating.mk recipeId (session_id user) rating])%list /\
  notifications (tables (world_after r)) = notifications (tables w) /\
  In (ConsoleError "Ошибка при создании уведомления:" (Some (DbError err))) (trace r).
Proof.
  intros Hf Hfound Hother Hnone r.
  remember r as r' eqn:Hr. unfold r in Hr. clear r.
  destruct w as [c faults replies e]. unfold tables in *. cbn [conn db_faults] in *.
  subst faults.
  destruct (filter (fun r => Recipe.id r =? recipeId) (recipes (view c)))
    as [|recipe' rows] eqn:Hrows; [discriminate Hfound|].
  cbn in Hfound. inversion Hfound; subst recipe'; clear Hfound.
  run_in Hr post_recipe_rating. rewrite Hrows, Hother, Hnone in Hr.
  run_in Hr createNotification. subst r'.
  cbn [outcome_of world_after conn trace]. rewrite view_put.
  split; [reflexivity|]. split; [reflexivity|]. split; [reflexivity|].
  find_event.
Qed.

Lemma rating_survives_failed_notification_witness :
  db_faults third_statement_fails = [None; None; Some ER_LOCK_WAIT_TIMEOUT] /\
  hd_error (filter (fun r => Recipe.id r =? 42) (recipes (tables third_statement_fails)))
  = Some borscht /\
  col_is (Recipe.user_id borscht) (session_id (session_of carol)) = false /\
  existsb (rated 42 (session_id (session_of carol)))
          (ratings (tables third_statement_fails)) = false /\
  notifications (tables (world_after
    (post_recipe_rating (Some (session_of carol)) 42 5 third_statement_fails)))
  = notifications (tables third_statement_fails).
Proof.
  split; [reflexivity|]. split; [reflexivity|]. split; [reflexivity|].
  split; [reflexivity|].
  exact (proj1 (proj2 (proj2 (rating_survives_failed_notification (session_of carol)
    42 5 borscht ER_LOCK_WAIT_TIMEOUT third_statement_fails
    eq_refl eq_refl eq_refl eq_refl)))).
Defined.

(* ================================================================== *)
(** ** More of the admin delete *)
(* ================================================================== *)

Lemma runs_as_ret {A : Type} (a : A) : runs_as (ret a) (fun t => t) (fun _ => a).
Proof.
  intros c replies e. exists []. cbn. rewrite put_view.
  split; [reflexivity|]. intros q ok [].
Qed.

Lemma runs_as_bind {A B : Type} (m : Async A) (k : A -> Async B)
    (f : Tables -> Tables) (g : Tables -> A)
    (f' : A -> Tables -> Tables) (g' : A -> Tables -> B) :
  runs_as m f g ->
  (forall a, runs_as (k a) (f' a) (g' a)) ->
  runs_as (bind m k) (fun t => f' (g t) (f t)) (fun t => g' (g t) (f t)).
Proof.
  intros Hm Hk c replies e. unfold bind.
  destruct (Hm c replies e) as (evs & E & Q). rewrite E.
  destruct (Hk (g (view c)) (put (f (view c)) c) replies e) as (evs2 & E2 & Q2).
  rewrite E2, view_put, put_put. exists (evs ++ evs2)%list.
  split; [reflexivity|]. intros q ok H. apply in_app_or in H.
  destruct H as [H|H]; eauto.
Qed.

Lemma runs_as_for_of {A : Type} (l : list A) (body : A -> Async unit)
    (step : A -> Tables -> Tables) :
  (forall x, runs_as (body x) (step x) (fun _ => tt)) ->
  runs_as (for_of l body) (fun t => fold_left (fun acc x => step x acc) l t)
          (fun _ => tt).
Proof.
  intros Hb. induction l as [|x l IH]; cbn [for_of fold_left].
  - apply (runs_as_ret tt).
  - exact (runs_as_bind (body x) (fun _ => for_of l body) (step x) (fun _ => tt)
             (fun _ t => fold_left (fun acc y => step y acc) l t) (fun _ _ => tt)
             (Hb x) (fun _ => IH)).
Qed.

(** One round of the loop of the cascade, on the tables. *)
Lemma cascade_round (recipe : Recipe.t) :
  runs_as (query (DELETE_steps_of_recipe (Recipe.id recipe)) ;;
           query (DELETE_categories_of_recipe (Recipe.id recipe)) ;;
           query (DELETE_ratings_of_recipe (Recipe.id recipe)) ;;
           query (DELETE_reviews_of_recipe (Recipe.id recipe)) ;;
           ret tt)
          (fun t =>
             mkTables (users t) (recipes t)
               (filter (fun s => negb (RecipeStep.recipe_id s =? Recipe.id recipe))
                       (recipe_steps t))
               (filter (fun s => negb (RecipeCategory.recipe_id s =? Recipe.id recipe))
                       (recipe_categories t))
               (filter (fun r => negb (Rating.recipe_id r =? Recipe.id recipe)) (ratings t))
               (filter (fun r => negb (Review.recipe_id r =? Recipe.id recipe)) (reviews t))
               (notifications t) (next_notification_id t))
          (fun _ => tt).
Proof.
  intros c replies e. cbn. rewrite !view_put, !put_put. cbn.
  eexists. split; [reflexivity|]. intros q ok H. in_trace H; reflexivity.
Qed.

Lemma filter_twice {A : Type} (f g : A -> bool) (l : list A) :
  filter f (filter g l) = filter (fun x => g x && f x) l.
Proof.
  induction l as [|x l IH]; cbn; [reflexivity|].
  destruct (g x); cbn; [destruct (f x)|]; rewrite IH; reflexivity.
Qed.

Lemma filter_all {A : Type} (f : A -> bool) (l : list A) :
  (forall x, f x = true) -> filter f l = l.
Proof.
  intros H. induction l as [|x l IH]; cbn; [reflexivity|].
  rewrite H, IH. reflexivity.
Qed.

Lemma cascade_rounds (l : list Recipe.t) (t : Tables) :
  fold_left
    (fun acc recipe =>
       mkTables (users acc) (recipes acc)
         (filter (fun s => negb (RecipeStep.recipe_id s =? Recipe.id recipe))
                 (recipe_steps acc))
         (filter (fun s => negb (RecipeCategory.recipe_id s =? Recipe.id recipe))
                 (recipe_categories acc))
         (filter (fun r => negb (Rating.recipe_id r =? Recipe.id recipe)) (ratings acc))
         (filter (fun r => negb (Review.recipe_id r =? Recipe.id recipe)) (reviews acc))
         (notifications acc) (next_notification_id acc))
    l t
  = mkTables (users t) (recipes t)
      (filter (fun s => negb (among l (RecipeStep.recipe_id s))) (recipe_steps t))
      (filter (fun s => negb (among l (RecipeCategory.recipe_id s))) (recipe_categories t))
      (filter (fun r => negb (among l (Rating.recipe_id r))) (ratings t))
      (filter (fun r => negb (among l (Review.recipe_id r))) (reviews t))
      (notifications t) (next_notification_id t).
Proof.
  revert t. induction l as [|x l IH]; intros t; cbn [fold_left].
  - destruct t. cbn. f_equal; symmetry; apply filter_all; reflexivity.
  - rewrite IH. cbn. rewrite !filter_twice.
    f_equal; apply filter_ext; intros a; unfold among; cbn;
      rewrite (Nat.eqb_sym (Recipe.id x)); rewrite negb_orb; reflexivity.
Qed.

Lemma bind_returns {A B : Type} (m : Async A) (k : A -> Async B) (w w1 : World)
    (a : A) (t1 : list event) :
  m w = mkRun (Returns a) w1 t1 ->
  bind m k w = match k a w1 with
               | mkRun o w2 t2 => mkRun o w2 (t1 ++ t2)%list
               end.
Proof. intros E. unfold bind. rewrite E. reflexivity. Qed.

(** The cascade on a connection where nothing goes wrong: it yields the
    row of the user, if there is one, and leaves the tables without
    anything of the user. *)
Lemma delete_cascade_calm (userId : nat) :
  runs_as (delete_cascade userId) (without_user userId)
          (fun t => hd_error (filter (fun u => User.id u =? userId) (users t))).
Proof.
  intros c replies e.
  exists (trace (delete_cascade userId (mkWorld c [] replies e))).
  split; [|apply (delete_cascade_in_transaction userId)].
  unfold delete_cascade. cbn -[for_of].
  destruct (runs_as_for_of (recipes_of userId (view c)) _ _ cascade_round c replies e)
    as (evs & E & _).
  rewrite !(bind_returns _ _ _ _ _ _ E). clear E.
  rewrite cascade_rounds. cbn. rewrite !view_put, !put_put. cbn.
  unfold without_user. rewrite ?filter_twice. reflexivity.
Qed.

(** The delete handler on a connection where nothing goes wrong, for an
    administrator deleting someone else: the cascade is committed either
    way; the page depends on whether the SELECT found the user. *)
Lemma post_admin_users_delete_calm (admin : SessionUser) (userId : nat)
    (c : Conn) (replies : list smtp_reply) (e : Env) :
  session_role admin = "admin" ->
  session_id admin <> userId ->
  let r := post_admin_users_delete (Some admin) userId (mkWorld c [] replies e) in
  world_after r
  = mkWorld (mkConn (without_user userId (view c)) None (now c)) [] replies e /\
  In (Query COMMIT true) (trace r) /\
  match hd_error (filter (fun u => User.id u =? userId) (users (view c))) with
  | Some u =>
      outcome_of r =
        Returns (RenderAdminUsers "Пользователи"
                   (UserSort.sort (users (without_user userId (view c))))
                   (Message ("Пользователь " ++ User.login u
                               ++ " и все его данные удалены!"))) /\
      (forall ok, ~ In (Query ROLLBACK ok) (trace r))
  | None =>
      outcome_of r =
        Returns (RenderAdminUsers "Пользователи"
                   (UserSort.sort (users (without_user userId (view c))))
                   (Error "Ошибка при удалении пользователя")) /\
      In (ConsoleError EmptyString
            (Some (TypeError "Cannot read properties of undefined (reading 'login')")))
         (trace r)
  end.
Proof.
  intros Hrole Hother r. remember r as r' eqn:Hr. unfold r in Hr. clear r.
  unfold post_admin_users_delete, requireAdmin in Hr.
  rewrite Hrole in Hr. cbn [String.eqb Ascii.eqb Bool.eqb] in Hr.
  apply Nat.eqb_neq in Hother. rewrite Hother in Hr.
  destruct (delete_cascade_calm userId (mkConn (view c) (Some (view c)) (now c))
              replies e) as (evs & E & Q).
  unfold try_catch in Hr.
  assert (S0 : query START_TRANSACTION (mkWorld c [] replies e)
               = mkRun (Returns tt)
                   (mkWorld (mkConn (view c) (Some (view c)) (now c)) [] replies e)
                   [Query START_TRANSACTION true]) by reflexivity.
  rewrite (bind_returns _ _ _ _ _ _ S0) in Hr.
  rewrite (bind_returns _ _ _ _ _ _ E) in Hr. clear S0 E.
  cbn [view put txn committed now] in Hr.
  destruct (hd_error (filter (fun u => User.id u =? userId) (users (view c))))
    as [u|]; cbn -[UserSort.sort without_user String.append] in Hr; subst r';
    cbn [outcome_of world_after trace].
  - split; [reflexivity|]. split; [apply in_cons, in_or_app; right; find_event|].
    split; [reflexivity|]. intros ok [H|H]; [discriminate H|].
    apply in_app_or in H. destruct H as [H|H].
    + apply Q in H. discriminate H.
    + in_trace H.
  - rewrite <- app_assoc. cbn [app].
    split; [reflexivity|]. split; [apply in_cons, in_or_app; right; find_event|].
    split; [reflexivity|]. apply in_cons, in_or_app. right. find_event.
Qed.

Lemma existsb_filter_negb {A : Type} (f : A -> bool) (l : list A) :
  existsb f (filter (fun x => negb (f x)) l) = false.
Proof.
  induction l as [|x l IH]; cbn; [reflexivity|].
  destruct (f x) eqn:E; cbn; [exact IH|]. rewrite E. exact IH.
Qed.

(** What is in the tables without a user, row by row. *)
Lemma without_user_rows (userId : nat) (t : Tables) :
  let t' := without_user userId t in
  let theirs := recipes_of userId t in
  user_exists userId t' = false /\
  (forall x, In x (recipes t') -> col_is (Recipe.user_id x) userId = false) /\
  (forall x, In x (recipe_steps t') -> among theirs (RecipeStep.recipe_id x) = false) /\
  (forall x, In x (recipe_categories t') ->
             among theirs (RecipeCategory.recipe_id x) = false) /\
  (forall x, In x (ratings t') ->
             Rating.user_id x <> userId /\ among theirs (Rating.recipe_id x) = false) /\
  (forall x, In x (reviews t') ->
             col_is (Review.user_id x) userId = false /\
             among theirs (Review.recipe_id x) = false) /\
  (forall x, In x (notifications t') -> Notification.user_id x <> userId) /\
  (forall x, In x (users t) -> User.id x <> userId -> In x (users t')) /\
  (forall x, In x (recipes t) -> col_is (Recipe.user_id x) userId = false ->
             In x (recipes t')) /\
  (forall x, In x (notifications t) -> Notification.user_id x <> userId ->
             In x (notifications t')).
Proof.
  intros t' theirs. unfold t', without_user, user_exists.
  cbn [users recipes recipe_steps recipe_categories ratings reviews notifications].
  fold theirs.
  split; [apply (existsb_filter_negb (fun u => User.id u =? userId))|].
  split. { intros x H. apply filter_In in H. destruct H as [_ H].
           apply negb_true_iff in H. exact H. }
  split. { intros x H. apply filter_In in H. destruct H as [_ H].
           apply negb_true_iff in H. exact H. }
  split. { intros x H. apply filter_In in H. destruct H as [_ H].
           apply negb_true_iff in H. exact H. }
  split. { intros x H. apply filter_In in H. destruct H as [_ H].
           apply andb_true_iff in H. destruct H as [H1 H2].
           apply negb_true_iff in H1, H2. apply Nat.eqb_neq in H2.
           split; assumption. }
  split. { intros x H. apply filter_In in H. destruct H as [_ H].
           apply andb_true_iff in H. destruct H as [H1 H2].
           apply negb_true_iff in H1, H2. split; assumption. }
  split. { intros x H. apply filter_In in H. destruct H as [_ H].
           apply negb_true_iff in H. apply Nat.eqb_neq in H. exact H. }
  split. { intros x H N. apply filter_In. split; [exact H|].
           apply negb_true_iff, Nat.eqb_neq. exact N. }
  split. { intros x H N. apply filter_In. split; [exact H|].
           apply negb_true_iff. exact N. }
  intros x H N. apply filter_In. split; [exact H|].
  apply negb_true_iff, Nat.eqb_neq. exact N.
Qed.

(** X17.  The delete route behind requireAdmin: without a session, or with
    a session whose role is not admin, the answer is 403 and the handler is
    never entered: no statement is issued and nothing changes. *)
Theorem admin_delete_requires_admin (session : option SessionUser) (userId : nat)
    (w : World) :
  is_admin session = false ->
  post_admin_users_delete session userId w
  = mkRun (Returns (Send 403 "Доступ запрещён")) w [].
Proof.
  intros H. unfold post_admin_users_delete, requireAdmin.
  destruct session as [user|]; [|reflexivity].
  unfold is_admin in H. rewrite H. reflexivity.
Qed.

Lemma admin_delete_requires_admin_witness :
  is_admin (Some (session_of alice)) = false /\
  post_admin_users_delete (Some (session_of alice)) 3 calm
  = mkRun (Returns (Send 403 "Доступ запрещён")) calm [].
Proof.
  split; [reflexivity|].
  exact (admin_delete_requires_admin (Some (session_of alice)) 3 calm eq_refl).
Defined.

(** X18.  An administrator cannot delete their own account: the handler
    only reads the list of users, opens no transaction, deletes nothing,
    and, when that read goes through, shows the list with the refusal. *)
Theorem admin_cannot_delete_self (admin : SessionUser) (w : World) :
  session_role admin = "admin" ->
  let r := post_admin_users_delete (Some admin) (session_id admin) w in
  conn (world_after r) = conn w /\
  (forall q ok, In (Query q ok) (trace r) -> q = SELECT_users) /\
  (forall page, outcome_of r = Returns page ->
     page = RenderAdminUsers "Пользователи" (UserSort.sort (users (tables w)))
              (Error "Нельзя удалить свой собственный аккаунт!")).
Proof.
  intros Hrole r. remember r as r' eqn:Hr. unfold r in Hr. clear r.
  unfold post_admin_users_delete, requireAdmin in Hr.
  rewrite Hrole in Hr. cbn [String.eqb Ascii.eqb Bool.eqb] in Hr.
  rewrite Nat.eqb_refl in Hr.
  by_fault_schedule w; cbn -[UserSort.sort] in Hr; subst r';
    cbn [outcome_of world_after trace conn].
  - split; [reflexivity|]. split; [intros q ok H; in_trace H; reflexivity|].
    intros page H. inversion H. reflexivity.
  - split; [reflexivity|]. split; [intros q ok H; in_trace H; reflexivity|].
    intros page H. discriminate H.
  - split; [reflexivity|]. split; [intros q ok H; in_trace H; reflexivity|].
    intros page H. inversion H. reflexivity.
Qed.

Lemma admin_cannot_delete_self_witness :
  session_role (session_of bob) = "admin" /\
  conn (world_after (post_admin_users_delete (Some (session_of bob)) 2 calm))
  = conn calm.
Proof.
  split; [reflexivity|].
  exact (proj1 (admin_cannot_delete_self (session_of bob) calm eq_refl)).
Defined.

(* ------------------------------------------------------------------ *)
(** *** The mail module *)
(* ------------------------------------------------------------------ *)

Lemma has_gt_strip_from (b : bool) (s : string) :
  Js.has_gt (Js.strip_from b s) = true -> Js.has_gt s = true.
Proof.
  revert b. induction s as [|c t IH]; intros b; cbn; [destruct b; trivial|].
  destruct b.
  - destruct (Ascii.eqb c ">"); [reflexivity|]. cbn. apply IH.
  - destruct (Ascii.eqb c ">") eqn:G; [reflexivity|]. cbn.
    destruct (Ascii.eqb c "<" && Js.has_gt t); cbn; [apply IH|].
    rewrite G. cbn. apply IH.
Qed.

Lemma has_tag_strip_from (b : bool) (s : string) :
  has_tag (Js.strip_from b s) = false.
Proof.
  revert b. induction s as [|c t IH]; intros b; cbn; [reflexivity|].
  destruct b.
  - destruct (Ascii.eqb c ">"); apply IH.
  - destruct (Ascii.eqb c "<") eqn:L; cbn.
    + destruct (Js.has_gt t) eqn:G; cbn; [apply IH|].
      rewrite L, IH. cbn.
      destruct (Js.has_gt (Js.strip_from false t)) eqn:G'; [|reflexivity].
      apply has_gt_strip_from in G'. congruence.
    + rewrite L, IH. reflexivity.
Qed.

Lemma strip_from_no_tag (s : string) :
  has_tag s = false -> Js.strip_from false s = s.
Proof.
  induction s as [|c t IH]; cbn; [reflexivity|].
  intros H. apply orb_false_iff in H. destruct H as [H1 H2].
  rewrite H1, (IH H2). reflexivity.
Qed.

(** X19.  The plain-text alternative of an HTML mail.  Whatever the
    content, the text part has no tag left in it: no [<] with a [>]
    anywhere after it.  A content without tags is its own text part, and
    stripping twice is stripping once. *)
Theorem mail_text_has_no_tag (e : Env) (to subject content : string) :
  let text := Mail.text (mailOptions e to subject content true) in
  has_tag text = false /\
  (has_tag content = false -> text = content) /\
  Js.stripTags text = text.
Proof.
  cbn. unfold Js.stripTags. split; [apply has_tag_strip_from|].
  split; [apply strip_from_no_tag|].
  apply strip_from_no_tag, has_tag_strip_from.
Qed.

(** X20.  sendEmailNotification sends when, and only when, recipient,
    subject and content are all non-empty.  With one of them empty it
    logs the complaint, returns false and never reaches the transport.
    Otherwise it hands exactly one mail to the transport, the one built
    by mailOptions, and returns the transport's verdict. *)
Theorem sendEmailNotification_needs_all_three (to subject content : string)
    (isHtml : bool) (w : World) :
  let r := sendEmailNotification to subject content isHtml w in
  let incomplete := String.eqb to EmptyString || String.eqb subject EmptyString
                    || String.eqb content EmptyString in
  (incomplete = true ->
   r = mkRun (Returns false) w
         [ConsoleError "❌ Не указаны параметры для отправки email" None]) /\
  (incomplete = false ->
   exists ok, outcome_of r = Returns ok /\
              mails (trace r) = [(mailOptions (env w) to subject content isHtml, ok)]).
Proof.
  intros r incomplete. unfold r, sendEmailNotification, try_catch.
  fold incomplete. split; intros H; rewrite H.
  - reflexivity.
  - destruct w as [c faults replies e]. destruct replies as [|[i|] replies];
      cbn -[mailOptions String.append].
    + exists true. split; reflexivity.
    + exists true. split; reflexivity.
    + exists false. split; reflexivity.
Qed.

Lemma no_user_no_row (uid : nat) (t : Tables) :
  user_exists uid t = false -> filter (fun u => User.id u =? uid) (users t) = [].
Proof.
  unfold user_exists. induction (users t) as [|u l IH]; cbn; [reflexivity|].
  destruct (User.id u =? uid); cbn; [discriminate|exact IH].
Qed.

(** X21.  sendNotification for an id that is no user: it returns false,
    issues nothing but the SELECT of the user, writes no notification and
    sends no mail, whatever the type, the payload and the email flag. *)
Theorem sendNotification_unknown_user_writes_nothing (userId : nat) (type : string)
    (data : option Data.t) (sendEmail : bool) (w : World) :
  user_exists userId (tables w) = false ->
  let r := sendNotification userId type data sendEmail w in
  outcome_of r = Returns false /\
  conn (world_after r) = conn w /\
  (forall q ok, In (Query q ok) (trace r) -> q = SELECT_user_email_name userId) /\
  (forall m ok, ~ In (SendMail m ok) (trace r)) /\
  (db_faults w = [] ->
   trace r = [Query (SELECT_user_email_name userId) true;
              ConsoleError ("❌ Пользователь с ID " ++ Js.string_of_nat userId
                              ++ " не найден") None]).
Proof.
  intros Hnone r. remember r as r' eqn:Hr. unfold r in Hr. clear r.
  apply no_user_no_row in Hnone.
  destruct w as [c faults replies e]. unfold tables in *. cbn [conn db_faults] in *.
  destruct faults as [|[err|] faults]; run_in Hr sendNotification;
    rewrite ?Hnone in Hr; run_in Hr sendNotification; subst r';
    cbn [outcome_of world_after trace conn];
    (split; [reflexivity|]); (split; [reflexivity|]);
    (split; [intros q ok H; in_trace H; reflexivity|]);
    (split; [intros m ok H; in_trace H|]).
  - reflexivity.
  - discriminate.
  - discriminate.
Qed.

Lemma sendNotification_unknown_user_writes_nothing_witness :
  user_exists 99 (tables calm) = false /\
  outcome_of (sendNotification 99 NEW_RATING (Some alice_rated_borscht) true calm)
  = Returns false.
Proof.
  split; [reflexivity|].
  exact (proj1 (sendNotification_unknown_user_writes_nothing 99 NEW_RATING
                  (Some alice_rated_borscht) true calm eq_refl)).
Defined.

(** X22.  sendNotification called without a payload: reading the link of
    no payload throws inside the try block, before the INSERT.  The call
    returns false, issues nothing but the SELECT of the user, writes no
    notification and sends no mail. *)
Theorem sendNotification_without_payload (userId : nat) (type : string)
    (sendEmail : bool) (w : World) :
  let r := sendNotification userId type None sendEmail w in
  outcome_of r = Returns false /\
  conn (world_after r) = conn w /\
  (forall q ok, In (Query q ok) (trace r) -> q = SELECT_user_email_name userId) /\
  (forall m ok, ~ In (SendMail m ok) (trace r)).
Proof.
  intros r. remember r as r' eqn:Hr. unfold r in Hr. clear r.
  destruct w as [c faults replies e].
  destruct faults as [|[err|] faults]; run_in Hr sendNotification;
    try destruct (filter (fun u => User.id u =? userId) (users (view c)))
      as [|user rows];
    run_in Hr sendNotification; subst r';
    cbn [outcome_of world_after trace conn];
    (split; [reflexivity|]); (split; [reflexivity|]);
    (split; [intros q ok H; in_trace H; reflexivity|]);
    intros m ok H; in_trace H.
Qed.

(** X23.  Who gets mail from sendNotification.  A mail is handed to the
    transport only when the email flag is set and the SELECT found a user
    with a non-empty address; it goes to that address with the subject of
    the type, the call hands no other mail to the transport, and it returns
    true whether the transport took the mail or refused it. *)
Theorem sendNotification_mails_only_the_user (userId : nat) (type : string)
    (data : option Data.t) (sendEmail : bool) (w : World) (m : Mail.t) (ok : bool) :
  In (SendMail m ok) (trace (sendNotification userId type data sendEmail w)) ->
  let r := sendNotification userId type data sendEmail w in
  sendEmail = true /\
  (exists user,
     hd_error (filter (fun u => User.id u =? userId) (users (tables w))) = Some user /\
     User.email user = Some (Mail.to m) /\ Mail.to m <> EmptyString) /\
  Mail.subject m = getEmailSubject type /\
  outcome_of r = Returns true /\
  (forall m' ok', In (SendMail m' ok') (trace r) -> m' = m).
Proof.
  intros Hin r.
  destruct (sendNotification_cases userId type data sendEmail w)
    as [(_ & _ & _ & Hno)|(d & user & tail & _ & Hfound & Hout & _ & Htrace & _ & _ & Hmail)].
  - exfalso. exact (Hno m ok Hin).
  - fold r in Hout, Htrace, Hin.
    assert (Tail : forall m' ok', In (SendMail m' ok') (trace r) ->
                                  In (SendMail m' ok') tail).
    { intros m' ok' H. rewrite Htrace in H.
      destruct H as [H|[H|H]]; [discriminate H|discriminate H|exact H]. }
    destruct (Hmail m ok (Tail m ok Hin)) as (Hflag & Hm & _).
    apply andb_true_iff in Hflag. destruct Hflag as [Hflag Haddr].
    split; [exact Hflag|]. split.
    + exists user. split; [exact Hfound|]. rewrite Hm. cbn [Mail.to mailOptions].
      destruct (User.email user) as [addr|]; [|discriminate Haddr].
      cbn in Haddr |- *. split; [reflexivity|].
      intros E. rewrite E in Haddr. discriminate Haddr.
    + split; [rewrite Hm; reflexivity|]. split; [exact Hout|].
      intros m' ok' H. destruct (Hmail m' ok' (Tail m' ok' H)) as (_ & Hm' & _).
      rewrite Hm, Hm'. reflexivity.
Qed.

Lemma sendNotification_mails_only_the_user_witness :
  In (SendMail
        (mailOptions plain_env "alice@example.org" (getEmailSubject ADMIN_BAN)
           (generateEmailContent plain_env ADMIN_BAN alice_rated_borscht) true)
        false)
     (trace (sendNotification 1 ADMIN_BAN (Some alice_rated_borscht) true refusing)) /\
  outcome_of (sendNotification 1 ADMIN_BAN (Some alice_rated_borscht) true refusing)
  = Returns true.
Proof.
  assert (H : In (SendMail
        (mailOptions plain_env "alice@example.org" (getEmailSubject ADMIN_BAN)
           (generateEmailContent plain_env ADMIN_BAN alice_rated_borscht) true)
        false)
     (trace (sendNotification 1 ADMIN_BAN (Some alice_rated_borscht) true refusing))).
  { vm_compute. right. right. left. reflexivity. }
  split; [exact H|].
  exact (proj1 (proj2 (proj2 (proj2 (sendNotification_mails_only_the_user 1 ADMIN_BAN
           (Some alice_rated_borscht) true refusing _ false H))))).
Defined.

Lemma includes_refl (n : string) : Js.includes n n = true.
Proof.
  apply includes_spec. exists EmptyString, EmptyString. cbn.
  induction n as [|c n IH]; cbn; [reflexivity|]. rewrite <- IH. reflexivity.
Qed.

Lemma emailTemplate_includes (e : Env) (n content : string) :
  Js.includes n content = true -> Js.includes n (emailTemplate e content) = true.
Proof.
  intros H. unfold emailTemplate.
  repeat first [ apply includes_app_l; exact H | apply includes_app_r ].
Qed.

(** X24.  The HTML body of a mail carries the payload as it is.  For every
    payload, the body of a rating mail contains the user name, the recipe
    title, the rating and the link, and the body of a review mail contains
    the user name, the recipe title, the text of the review and the link,
    each exactly as JavaScript prints the field: nothing is escaped or
    shortened on the way into the template. *)
Theorem mail_body_carries_payload (e : Env) (d : Data.t) :
  let body type := emailTemplate e (generateEmailContent e type d) in
  let shown v := Js.toString v in
  (Js.includes (shown (Data.userName d)) (body NEW_RATING) = true /\
   Js.includes (shown (Data.recipeTitle d)) (body NEW_RATING) = true /\
   Js.includes (shown (Data.rating d)) (body NEW_RATING) = true /\
   Js.includes (shown (Data.link d)) (body NEW_RATING) = true) /\
  (Js.includes (shown (Data.userName d)) (body NEW_REVIEW) = true /\
   Js.includes (shown (Data.recipeTitle d)) (body NEW_REVIEW) = true /\
   Js.includes (shown (Data.reviewText d)) (body NEW_REVIEW) = true /\
   Js.includes (shown (Data.link d)) (body NEW_REVIEW) = true).
Proof.
  intros body shown. unfold body, shown.
  change (generateEmailContent e NEW_RATING d) with (content_NEW_RATING e d).
  change (generateEmailContent e NEW_REVIEW d) with (content_NEW_REVIEW e d).
  repeat split; apply emailTemplate_includes;
    unfold content_NEW_RATING, content_NEW_REVIEW;
    repeat first [ apply includes_app_l; apply includes_refl | apply includes_app_r ].
Qed.

(* ================================================================== *)
(** ** The admin delete on the pool *)
(* ================================================================== *)

Import Routing.

(** Inside a transaction a statement does to the working copy what it
    does to the tables when it runs on its own. *)
Lemma execute_on_working_copy (q : statement) (d t : Tables) (n : nat) (c : Conn)
    (r : result q) :
  is_transaction_control q = false ->
  execute q (mkConn d (Some t) n) = inr (c, r) ->
  c = mkConn d (Some (Pool.applied n q t)) n.
Proof.
  intros Hq H. unfold Pool.applied.
  destruct q; try discriminate Hq;
    cbn [execute] in *; unfold deletes, writes, reads, put, view in *;
    cbn [txn committed now] in *;
    repeat match type of H with
           | context [match ?x with _ => _ end] => destruct x eqn:?
           end;
    try discriminate H; inversion H; subst; reflexivity.
Qed.

Lemma execute_autocommit (q : statement) (d : Tables) (n : nat) (c : Conn)
    (r : result q) :
  q <> START_TRANSACTION ->
  execute q (mkConn d None n) = inr (c, r) -> txn c = None /\ now c = n.
Proof.
  intros Hq H.
  destruct q; try (exfalso; apply Hq; reflexivity);
    cbn [execute] in *; unfold deletes, writes, reads, put, view in *;
    cbn [txn committed now] in *;
    repeat match type of H with
           | context [match ?x with _ => _ end] => destruct x eqn:?
           end;
    try discriminate H; inversion H; subst; split; reflexivity.
Qed.

Lemma replay_app (n : nat) (log : list statement) (q : statement) (t : Tables) :
  Pool.replay n (log ++ [q]) t = Pool.applied n q (Pool.replay n log t).
Proof. unfold Pool.replay. rewrite fold_left_app. reflexivity. Qed.

(** After a statement went through on connection 0, the pool shows that
    connection as the statement left it. *)
Lemma connection_logged (q : statement) (d : Tables) (n : nat)
    (s : list (option (list statement))) (c : Conn) (r : result q) :
  execute q (mkConn d (option_map (fun log => Pool.replay n log d) (nth 0 s None)) n)
  = inr (c, r) ->
  mkConn (committed c)
         (option_map (fun log => Pool.replay (now c) log (committed c))
            (nth 0 (Pool.store 0 (Pool.logged q c (nth 0 s None)) s) None))
         (now c) = c.
Proof.
  intros H.
  assert (N : nth 0 (Pool.store 0 (Pool.logged q c (nth 0 s None)) s) None
              = Pool.logged q c (nth 0 s None)) by (destruct s; reflexivity).
  rewrite N. clear N. destruct (nth 0 s None) as [log|]; cbn [option_map] in H.
  - destruct (is_transaction_control q) eqn:Hq.
    + destruct q; try discriminate Hq; cbn in H; inversion H; subst; reflexivity.
    + pose proof (execute_on_working_copy q d _ n c r Hq H) as E. subst c.
      unfold Pool.logged. cbn [txn committed now option_map].
      destruct q; try discriminate Hq; cbn [option_map]; rewrite replay_app;
        reflexivity.
  - assert (D : q = START_TRANSACTION \/ q <> START_TRANSACTION)
      by (destruct q; (left; reflexivity) || (right; discriminate)).
    destruct D as [D|D].
    + subst q. cbn in H. inversion H; subst. reflexivity.
    + destruct (execute_autocommit q d n c r D H) as (Ht & _).
      unfold Pool.logged. rewrite Ht. destruct c as [k u m]. cbn in Ht. subst u.
      reflexivity.
Qed.

Lemma pinned_ret {A : Type} (a : A) : pinned (ret a) (Pool.ret a).
Proof. intros w replies e H. repeat split; assumption. Qed.

Lemma pinned_throw {A : Type} (ex : exn) : pinned (@throw A ex) (Pool.throw ex).
Proof. intros w replies e H. repeat split; assumption. Qed.

Lemma pinned_console_error (line : string) (err : option exn) :
  pinned (console_error line err) (Pool.console_error line err).
Proof. intros w replies e H. repeat split; assumption. Qed.

Lemma pinned_query (q : statement) : pinned (query q) (Pool.query q).
Proof.
  intros [d s k rts fts] replies e H. cbn in H. subst rts.
  unfold pin, Pool.query, query, next_fault, Pool.next_fault, Pool.next_route,
    Pool.connection.
  cbn [Pool.durable Pool.sessions Pool.clock Pool.routes Pool.faults
       conn db_faults smtp env tl].
  destruct fts as [|[err|] fts]; cbn [tl]; try (repeat split; reflexivity);
    (destruct (execute q (mkConn d (option_map (fun log => Pool.replay k log d)
                                      (nth 0 s None)) k))
       as [err|[c res]] eqn:E;
     [repeat split; reflexivity|]);
    cbn [Pool.outcome_of Pool.trace Pool.world_after outcome_of trace world_after
         Pool.durable Pool.sessions Pool.clock Pool.routes Pool.faults];
    rewrite (connection_logged q d k s c res E); repeat split; reflexivity.
Qed.

Lemma pinned_bind {A B : Type} (m : Async A) (pm : Pool.Async A)
    (k : A -> Async B) (pk : A -> Pool.Async B) :
  pinned m pm -> (forall a, pinned (k a) (pk a)) ->
  pinned (bind m k) (Pool.bind pm pk).
Proof.
  intros Hm Hk w replies e H. unfold bind, Pool.bind.
  destruct (Hm w replies e H) as (Ho & Ht & Hr & Hw).
  destruct (pm w) as [po pw1 pt1]. destruct (m (pin replies e w)) as [o w1 t1].
  cbn in Ho, Ht, Hr, Hw. subst po pt1 w1.
  destruct o as [a|ex]; [|repeat split; assumption].
  destruct (Hk a pw1 replies e Hr) as (Ho2 & Ht2 & Hr2 & Hw2).
  destruct (pk a pw1) as [po2 pw2 pt2].
  destruct (k a (pin replies e pw1)) as [o2 w2 t2].
  cbn in Ho2, Ht2, Hr2, Hw2 |- *. subst po2 pt2 w2. repeat split; assumption.
Qed.

Lemma pinned_try_catch {A : Type} (body : Async A) (pbody : Pool.Async A)
    (handler : exn -> Async A) (phandler : exn -> Pool.Async A) :
  pinned body pbody -> (forall ex, pinned (handler ex) (phandler ex)) ->
  pinned (try_catch body handler) (Pool.try_catch pbody phandler).
Proof.
  intros Hm Hk w replies e H. unfold try_catch, Pool.try_catch.
  destruct (Hm w replies e H) as (Ho & Ht & Hr & Hw).
  destruct (pbody w) as [po pw1 pt1]. destruct (body (pin replies e w)) as [o w1 t1].
  cbn in Ho, Ht, Hr, Hw. subst po pt1 w1.
  destruct o as [a|ex]; [repeat split; assumption|].
  destruct (Hk ex pw1 replies e Hr) as (Ho2 & Ht2 & Hr2 & Hw2).
  destruct (phandler ex pw1) as [po2 pw2 pt2].
  destruct (handler ex (pin replies e pw1)) as [o2 w2 t2].
  cbn in Ho2, Ht2, Hr2, Hw2 |- *. subst po2 pt2 w2. repeat split; assumption.
Qed.

Lemma pinned_for_of {A : Type} (l : list A) (body : A -> Async unit)
    (pbody : A -> Pool.Async unit) :
  (forall x, pinned (body x) (pbody x)) ->
  pinned (for_of l body) (Pool.for_of l pbody).
Proof.
  intros Hb. induction l as [|x l IH]; cbn [for_of Pool.for_of].
  - apply pinned_ret.
  - apply pinned_bind; [apply Hb|intros _; exact IH].
Qed.

Lemma delete_cascade_pinned (userId : nat) :
  pinned (delete_cascade userId) (Pool.delete_cascade userId).
Proof.
  unfold delete_cascade, Pool.delete_cascade.
  repeat first
    [ apply pinned_ret
    | apply pinned_query
    | apply pinned_for_of; intros ?
    | apply pinned_bind; [|intros ?] ].
Qed.

(** The delete handler on a pool that serves the whole request from one
    connection is the delete handler on that connection. *)
Lemma post_admin_users_delete_pinned (session : option SessionUser) (userId : nat) :
  pinned (post_admin_users_delete session userId)
         (Pool.post_admin_users_delete session userId).
Proof.
  unfold post_admin_users_delete, Pool.post_admin_users_delete,
    requireAdmin, Pool.requireAdmin.
  destruct session as [admin|]; [|apply pinned_ret].
  destruct (String.eqb (session_role admin) "admin"); [|apply pinned_ret].
  destruct (session_id admin =? userId).
  - apply pinned_bind; [apply pinned_query|intros ?; apply pinned_ret].
  - apply pinned_try_catch.
    + apply pinned_bind; [apply pinned_query|intros _].
      apply pinned_bind; [apply delete_cascade_pinned|intros user].
      apply pinned_bind; [apply pinned_query|intros _].
      apply pinned_bind; [apply pinned_query|intros users].
      destruct user; [apply pinned_ret|apply pinned_throw].
    + intros ex.
      apply pinned_bind; [apply pinned_query|intros _].
      apply pinned_bind; [apply pinned_console_error|intros _].
      apply pinned_bind; [apply pinned_query|intros users].
      apply pinned_ret.
Qed.

(** What a pinned run leaves on the pool, read off the one connection. *)
Lemma pinned_connection {A : Type} (m : Async A) (pm : Pool.Async A) (w : Pool.World) :
  pinned m pm ->
  Pool.routes w = [] ->
  let r' := m (pin [] plain_env w) in
  Pool.outcome_of (pm w) = outcome_of r' /\
  Pool.trace (pm w) = trace r' /\
  Pool.durable (Pool.world_after (pm w)) = committed (conn (world_after r')) /\
  (txn (conn (world_after r')) = None ->
   nth 0 (Pool.sessions (Pool.world_after (pm w))) None = None) /\
  Pool.seen 0 (Pool.world_after (pm w)) = tables (world_after r').
Proof.
  intros Hp Hr r'. destruct (Hp w [] plain_env Hr) as (Ho & Ht & _ & Hw).
  fold r' in Ho, Ht, Hw. rewrite <- Hw.
  split; [exact Ho|]. split; [exact Ht|]. split; [reflexivity|].
  split; [|reflexivity].
  unfold pin, Pool.connection. cbn [conn txn].
  destruct (nth 0 (Pool.sessions (Pool.world_after (pm w))) None);
    [discriminate|reflexivity].
Qed.

(** C1.  The admin delete at a failing input.  Administrator Bob deletes
    Alice.  The pool serves START TRANSACTION from one connection and the
    statements after it from another, and the DELETE of the ratings of
    Alice's recipe fails.  The handler issues ROLLBACK, which goes through,
    logs the error and answers with the failure page; and yet the step and
    the category link of the recipe, deleted before the failure, are gone
    from the committed tables: they were committed as they were executed,
    on a connection that had no transaction open.  The transaction that
    START TRANSACTION opened is still open on the other connection. *)
Theorem admin_delete_partial_on_pool :
  let r := Pool.post_admin_users_delete (Some (session_of bob)) 1 split_pool in
  is_cascade_delete (DELETE_ratings_of_recipe 42) = true /\
  In (Query (DELETE_ratings_of_recipe 42) false) (Pool.trace r) /\
  In (Query ROLLBACK true) (Pool.trace r) /\
  Pool.outcome_of r =
    Returns (RenderAdminUsers "Пользователи" [alice; bob; carol]
               (Error "Ошибка при удалении пользователя")) /\
  recipe_steps (Pool.durable split_pool) = [RecipeStep.mk 42 1 "Boil the beets"] /\
  recipe_steps (Pool.durable (Pool.world_after r)) = [] /\
  recipe_categories (Pool.durable split_pool) = [RecipeCategory.mk 42 7] /\
  recipe_categories (Pool.durable (Pool.world_after r)) = [] /\
  Pool.seen 0 (Pool.world_after r) <> Pool.seen 0 split_pool /\
  nth 1 (Pool.sessions (Pool.world_after r)) None = Some [].
Proof.
  intros r.
  assert (E : Pool.trace r =
    [Query START_TRANSACTION true; Query (SELECT_user_login 1) true;
     Query (SELECT_recipe_ids 1) true; Query (DELETE_steps_of_recipe 42) true;
     Query (DELETE_categories_of_recipe 42) true;
     Query (DELETE_ratings_of_recipe 42) false; Query ROLLBACK true;
     ConsoleError EmptyString (Some (DbError ER_LOCK_WAIT_TIMEOUT));
     Query SELECT_users true]) by (vm_compute; reflexivity).
  split; [reflexivity|]. rewrite E.
  split; [find_event|]. split; [find_event|].
  split; [vm_compute; reflexivity|]. split; [reflexivity|].
  split; [vm_compute; reflexivity|]. split; [reflexivity|].
  split; [vm_compute; reflexivity|].
  split; [|vm_compute; reflexivity].
  intros H. apply (f_equal recipe_steps) in H. vm_compute in H. discriminate H.
Qed.

(** X14.  An administrator deletes another user, the pool serves the whole
    request from one connection and nothing goes wrong: what is committed
    is the tables without anything of that user, the transaction is
    closed, no ROLLBACK was issued, and the page lists the remaining users
    with the success message naming the login. *)
Theorem admin_delete_commits_cascade (admin : SessionUser) (userId : nat)
    (u : User.t) (w : Pool.World) :
  Pool.routes w = [] ->
  Pool.faults w = [] ->
  session_role admin = "admin" ->
  session_id admin <> userId ->
  hd_error (filter (fun x => User.id x =? userId) (users (Pool.seen 0 w))) = Some u ->
  let r := Pool.post_admin_users_delete (Some admin) userId w in
  Pool.outcome_of r =
    Returns (RenderAdminUsers "Пользователи"
               (UserSort.sort (users (without_user userId (Pool.seen 0 w))))
               (Message ("Пользователь " ++ User.login u
                           ++ " и все его данные удалены!"))) /\
  Pool.durable (Pool.world_after r) = without_user userId (Pool.seen 0 w) /\
  nth 0 (Pool.sessions (Pool.world_after r)) None = None /\
  In (Query COMMIT true) (Pool.trace r) /\
  (forall ok, ~ In (Query ROLLBACK ok) (Pool.trace r)).
Proof.
  intros Hroutes Hf Hrole Hother Hfound r.
  destruct (pinned_connection _ _ w
              (post_admin_users_delete_pinned (Some admin) userId) Hroutes)
    as (Ho & Ht & Hd & Hs & _).
  fold r in Ho, Ht, Hd, Hs. unfold pin in Ho, Ht, Hd, Hs. rewrite Hf in Ho, Ht, Hd, Hs.
  destruct (post_admin_users_delete_calm admin userId (Pool.connection 0 w) []
              plain_env Hrole Hother) as (Hw & Hcommit & Hpage).
  unfold Pool.seen in Hfound. rewrite Hfound in Hpage. destruct Hpage as (Hout & Hnone).
  rewrite Hw in Hd, Hs. rewrite Ho, Ht, Hd.
  split; [exact Hout|]. split; [reflexivity|]. split; [apply Hs; reflexivity|].
  split; [exact Hcommit|exact Hnone].
Qed.

Lemma admin_delete_commits_cascade_witness :
  Pool.routes (pool_of [] []) = [] /\
  Pool.faults (pool_of [] []) = [] /\
  session_role (session_of bob) = "admin" /\
  session_id (session_of bob) <> 1 /\
  hd_error (filter (fun x => User.id x =? 1) (users (Pool.seen 0 (pool_of [] []))))
  = Some alice /\
  Pool.durable (Pool.world_after
    (Pool.post_admin_users_delete (Some (session_of bob)) 1 (pool_of [] [])))
  = without_user 1 (Pool.seen 0 (pool_of [] [])).
Proof.
  assert (N : session_id (session_of bob) <> 1) by (cbn; lia).
  split; [reflexivity|]. split; [reflexivity|]. split; [reflexivity|].
  split; [exact N|]. split; [reflexivity|].
  exact (proj1 (proj2 (admin_delete_commits_cascade (session_of bob) 1 alice
                         (pool_of [] []) eq_refl eq_refl eq_refl N eq_refl))).
Defined.

(** X15.  What the committed cascade leaves when the pool serves the whole
    request from one connection and nothing goes wrong: no row of the
    deleted user, no recipe of theirs and nothing attached to one, no
    rating, review or notification of theirs; and the users, recipes and
    notifications of everyone else are still there.  It holds whether or
    not the user was found. *)
Theorem admin_delete_leaves_nothing_of_user (admin : SessionUser) (userId : nat)
    (w : Pool.World) :
  Pool.routes w = [] ->
  Pool.faults w = [] ->
  session_role admin = "admin" ->
  session_id admin <> userId ->
  let before := Pool.seen 0 w in
  let t' := Pool.durable (Pool.world_after
              (Pool.post_admin_users_delete (Some admin) userId w)) in
  let theirs := recipes_of userId before in
  user_exists userId t' = false /\
  (forall x, In x (recipes t') -> col_is (Recipe.user_id x) userId = false) /\
  (forall x, In x (recipe_steps t') -> among theirs (RecipeStep.recipe_id x) = false) /\
  (forall x, In x (recipe_categories t') ->
             among theirs (RecipeCategory.recipe_id x) = false) /\
  (forall x, In x (ratings t') ->
             Rating.user_id x <> userId /\ among theirs (Rating.recipe_id x) = false) /\
  (forall x, In x (reviews t') ->
             col_is (Review.user_id x) userId = false /\
             among theirs (Review.recipe_id x) = false) /\
  (forall x, In x (notifications t') -> Notification.user_id x <> userId) /\
  (forall x, In x (users before) -> User.id x <> userId -> In x (users t')) /\
  (forall x, In x (recipes before) -> col_is (Recipe.user_id x) userId = false ->
             In x (recipes t')) /\
  (forall x, In x (notifications before) -> Notification.user_id x <> userId ->
             In x (notifications t')).
Proof.
  intros Hroutes Hf Hrole Hother before t' theirs.
  destruct (pinned_connection _ _ w
              (post_admin_users_delete_pinned (Some admin) userId) Hroutes)
    as (_ & _ & Hd & _).
  unfold pin in Hd. rewrite Hf in Hd.
  destruct (post_admin_users_delete_calm admin userId (Pool.connection 0 w) []
              plain_env Hrole Hother) as (Hw & _).
  rewrite Hw in Hd. cbn [conn committed] in Hd.
  unfold t', theirs. rewrite Hd. exact (without_user_rows userId before).
Qed.

Lemma admin_delete_leaves_nothing_of_user_witness :
  Pool.routes (pool_of [] []) = [] /\
  Pool.faults (pool_of [] []) = [] /\
  session_role (session_of bob) = "admin" /\
  session_id (session_of bob) <> 1 /\
  user_exists 1 (Pool.durable (Pool.world_after
    (Pool.post_admin_users_delete (Some (session_of bob)) 1 (pool_of [] [])))) = false.
Proof.
  assert (N : session_id (session_of bob) <> 1) by (cbn; lia).
  split; [reflexivity|]. split; [reflexivity|]. split; [reflexivity|].
  split; [exact N|].
  exact (proj1 (admin_delete_leaves_nothing_of_user (session_of bob) 1 (pool_of [] [])
                  eq_refl eq_refl eq_refl N)).
Defined.

(** X16.  Deleting an id that has no user row, the pool serving the whole
    request from one connection.  The cascade and the COMMIT go through;
    building the success message then reads the login of no row and
    throws, so the handler runs its catch: the ROLLBACK comes after the
    COMMIT and undoes nothing, the error is logged, and the page says the
    deletion failed although the deletes are committed. *)
Theorem admin_delete_unknown_user_reports_failure (admin : SessionUser)
    (userId : nat) (w : Pool.World) :
  Pool.routes w = [] ->
  Pool.faults w = [] ->
  session_role admin = "admin" ->
  session_id admin <> userId ->
  hd_error (filter (fun x => User.id x =? userId) (users (Pool.seen 0 w))) = None ->
  let r := Pool.post_admin_users_delete (Some admin) userId w in
  Pool.outcome_of r =
    Returns (RenderAdminUsers "Пользователи"
               (UserSort.sort (users (without_user userId (Pool.seen 0 w))))
               (Error "Ошибка при удалении пользователя")) /\
  In (Query COMMIT true) (Pool.trace r) /\
  In (ConsoleError EmptyString
        (Some (TypeError "Cannot read properties of undefined (reading 'login')")))
     (Pool.trace r) /\
  Pool.durable (Pool.world_after r) = without_user userId (Pool.seen 0 w) /\
  nth 0 (Pool.sessions (Pool.world_after r)) None = None.
Proof.
  intros Hroutes Hf Hrole Hother Hfound r.
  destruct (pinned_connection _ _ w
              (post_admin_users_delete_pinned (Some admin) userId) Hroutes)
    as (Ho & Ht & Hd & Hs & _).
  fold r in Ho, Ht, Hd, Hs. unfold pin in Ho, Ht, Hd, Hs. rewrite Hf in Ho, Ht, Hd, Hs.
  destruct (post_admin_users_delete_calm admin userId (Pool.connection 0 w) []
              plain_env Hrole Hother) as (Hw & Hcommit & Hpage).
  unfold Pool.seen in Hfound. rewrite Hfound in Hpage. destruct Hpage as (Hout & Hlog).
  rewrite Hw in Hd, Hs. rewrite Ho, Ht, Hd.
  split; [exact Hout|]. split; [exact Hcommit|]. split; [exact Hlog|].
  split; [reflexivity|apply Hs; reflexivity].
Qed.

Lemma admin_delete_unknown_user_reports_failure_witness :
  Pool.routes (pool_of [] []) = [] /\
  Pool.faults (pool_of [] []) = [] /\
  session_role (session_of bob) = "admin" /\
  session_id (session_of bob) <> 99 /\
  hd_error (filter (fun x => User.id x =? 99) (users (Pool.seen 0 (pool_of [] []))))
  = None /\
  In (Query COMMIT true)
     (Pool.trace (Pool.post_admin_users_delete (Some (session_of bob)) 99
                    (pool_of [] []))).
Proof.
  assert (N : session_id (session_of bob) <> 99) by (cbn; lia).
  split; [reflexivity|]. split; [reflexivity|]. split; [reflexivity|].
  split; [exact N|]. split; [reflexivity|].
  exact (proj1 (proj2 (admin_delete_unknown_user_reports_failure (session_of bob) 99
                         (pool_of [] []) eq_refl eq_refl eq_refl N eq_refl))).
Defined.

(** X25.  The rollback when the pool serves the whole request from one
    connection.  If a DELETE of the cascade fails, the handler issues
    ROLLBACK and nothing of the deletion is committed: the committed
    tables are those the connection saw before the request.  When the
    ROLLBACK goes through, no transaction is left open on the connection
    and it sees exactly the tables it saw before; and the only response
    the handler can give is the generic failure page. *)
Theorem admin_delete_rolls_back_on_one_connection (session : option SessionUser)
    (userId : nat) (w : Pool.World) (q : statement) :
  Pool.routes w = [] ->
  let r := Pool.post_admin_users_delete session userId w in
  is_cascade_delete q = true ->
  In (Query q false) (Pool.trace r) ->
  (exists ok, In (Query ROLLBACK ok) (Pool.trace r)) /\
  Pool.durable (Pool.world_after r) = Pool.seen 0 w /\
  (In (Query ROLLBACK true) (Pool.trace r) ->
   nth 0 (Pool.sessions (Pool.world_after r)) None = None /\
   Pool.seen 0 (Pool.world_after r) = Pool.seen 0 w) /\
  (forall resp, Pool.outcome_of r = Returns resp ->
     exists users,
       resp = RenderAdminUsers "Пользователи" users
                (Error "Ошибка при удалении пользователя")).
Proof.
  intros Hroutes r Hq Hin.
  destruct (pinned_connection _ _ w
              (post_admin_users_delete_pinned session userId) Hroutes)
    as (Ho & Ht & Hd & Hs & Hv).
  fold r in Ho, Ht, Hd, Hs, Hv. rewrite Ht in Hin.
  destruct (cascade_failure_on_one_connection session userId (pin [] plain_env w) q
              Hq Hin) as (A & B & C & D).
  rewrite Ho, Ht, Hd, Hv.
  split; [exact A|]. split; [exact B|]. split; [|exact D].
  intros Hrb. destruct (C Hrb) as (C1 & C2). split; [exact (Hs C1)|exact C2].
Qed.

Lemma admin_delete_rolls_back_on_one_connection_witness :
  let r := Pool.post_admin_users_delete (Some (session_of bob)) 1 pinned_pool in
  Pool.routes pinned_pool = [] /\
  is_cascade_delete (DELETE_ratings_of_recipe 42) = true /\
  In (Query (DELETE_ratings_of_recipe 42) false) (Pool.trace r) /\
  In (Query ROLLBACK true) (Pool.trace r) /\
  Pool.seen 0 (Pool.world_after r) = site.
Proof.
  intros r.
  assert (H : In (Query (DELETE_ratings_of_recipe 42) false) (Pool.trace r))
    by (vm_compute; do 5 right; left; reflexivity).
  assert (R : In (Query ROLLBACK true) (Pool.trace r))
    by (vm_compute; do 6 right; left; reflexivity).
  split; [reflexivity|]. split; [reflexivity|]. split; [exact H|]. split; [exact R|].
  destruct (admin_delete_rolls_back_on_one_connection (Some (session_of bob)) 1
              pinned_pool (DELETE_ratings_of_recipe 42) eq_refl eq_refl H)
    as (_ & _ & Hr & _).
  exact (proj2 (Hr R)).
Defined.
